(** * Demand forecasting: the feature transform, the serving endpoints and
    the model-selection protocol, embedded from [ml/app.py] and
    [ml/demand_forecasting_train.py].

    Python dictionaries with string keys are [gmap string _]; an exception is
    the [Raise] branch of [result]; Python floats are binary64 values of
    [SpecFloat.spec_float]; the fitted estimators, scikit-learn's metrics
    and searches, and marshmallow's field coercions are interfaces (classes)
    whose implementation the theorems do not depend on.

    The file has four parts: the embedding of the code, the vocabulary of
    the statements with instances to run the model on examples, the lemmas,
    and the theorems. *)

From Stdlib Require Import ZArith Ascii Lia Floats.SpecFloat.
From stdpp Require Import gmap strings list fin_maps.

Local Open Scope Z_scope.

(** ** Exceptions and results *)

(** What marshmallow reports for one field. *)
Inductive field_error :=
  | Missing | Null | Invalid | OutOfRange | NotOneOf | Unknown | InvalidInputType.

(** [err.messages]: field name and the error raised for it, in the order
    marshmallow records them. *)
Definition messages := list (string * field_error).

Inductive exn :=
  | KeyError (missing : list string)
  | ValueError
  | IndexError
  | OverflowError
  | ValidationError (msgs : messages).

Inductive result (A : Type) :=
  | Ok (a : A)
  | Raise (e : exn).
Arguments Ok {A} a.
Arguments Raise {A} e.

#[export] Instance result_ret : MRet result := fun A a => Ok a.
#[export] Instance result_bind : MBind result := fun A B f m =>
  match m with
  | Ok a => f a
  | Raise e => Raise e
  end.

(** ** [datetime.date] *)

Module datetime.

Record date := mkdate { year : Z; month : Z; day : Z }.

Definition _is_leap (y : Z) : bool :=
  (y mod 4 =? 0) && (negb (y mod 100 =? 0) || (y mod 400 =? 0)).

Definition _days_before_year (y : Z) : Z :=
  let y := y - 1 in y * 365 + y / 4 - y / 100 + y / 400.

Definition _DAYS_IN_MONTH : list Z :=
  [31; 28; 31; 30; 31; 30; 31; 31; 30; 31; 30; 31].

(** Days of the year before the first of month [m], February counted with
    28 days. *)
Definition _DAYS_BEFORE_MONTH (m : Z) : Z :=
  foldr Z.add 0 (take (Z.to_nat (m - 1)) _DAYS_IN_MONTH).

Definition _days_before_month (y m : Z) : Z :=
  _DAYS_BEFORE_MONTH m + (if (2 <? m) && _is_leap y then 1 else 0).

Definition _ymd2ord (y m d : Z) : Z :=
  _days_before_year y + _days_before_month y m + d.

Definition toordinal (dt : date) : Z := _ymd2ord (year dt) (month dt) (day dt).

(** Monday is 0. *)
Definition weekday (dt : date) : Z := (toordinal dt + 6) mod 7.

Definition _isoweek1monday (y : Z) : Z :=
  let firstday := _ymd2ord y 1 1 in
  let firstweekday := (firstday + 6) mod 7 in
  let week1monday := firstday - firstweekday in
  if 3 <? firstweekday then week1monday + 7 else week1monday.

(** [(ISO year, ISO week, ISO weekday)]. *)
Definition isocalendar (dt : date) : Z * Z * Z :=
  let y := year dt in
  let week1monday := _isoweek1monday y in
  let today := toordinal dt in
  let week := (today - week1monday) / 7 in
  let wday := (today - week1monday) mod 7 in
  if week <? 0 then
    let y := y - 1 in
    let week1monday := _isoweek1monday y in
    (y, (today - week1monday) / 7 + 1, (today - week1monday) mod 7 + 1)
  else if (52 <=? week) && (_isoweek1monday (y + 1) <=? today) then
    (y + 1, 1, wday + 1)
  else (y, week + 1, wday + 1).

(** [dt.isocalendar()[1]] *)
Definition isoweek (dt : date) : Z := snd (fst (isocalendar dt)).

End datetime.

(** ** Cells of a feature row *)

Inductive value :=
  | VInt (z : Z)
  | VFloat (f : spec_float).

(** ** The validated record: what [predict_schema.load] returns. *)

Record Data := mkData {
  date : datetime.date;
  category : string;
  region : string;
  inventory_level : Z;
  units_sold : Z;
  units_ordered : Z;
  price : spec_float;
  discount : spec_float;
  weather_condition : string;
  promotion : Z;
  competitor_pricing : spec_float;
  seasonality : string;
  epidemic : Z
}.

(** ** sklearn's [LabelEncoder] *)

Record LabelEncoder := mkLabelEncoder { classes_ : list string }.

Fixpoint index_of (s : string) (l : list string) : option Z :=
  match l with
  | [] => None
  | c :: l' => if decide (c = s) then Some 0 else Z.succ <$> index_of s l'
  end.

(** [le.transform(ys)]: the index of every label in [classes_];
    [ValueError] when one of them was not seen by [fit]. *)
Fixpoint transform (le : LabelEncoder) (ys : list string) : result (list Z) :=
  match ys with
  | [] => Ok []
  | y :: ys' =>
      match index_of y (classes_ le) with
      | None => Raise ValueError
      | Some i => codes ← transform le ys'; Ok (i :: codes)
      end
  end.

(** ** The artifact bundle, as [load_artifacts] returns it.  The model and
    the scaler are the types of the fitted estimators. *)

Record artifacts (Model Scaler : Type) := mkArtifacts {
  art_model : Model;
  art_scaler : Scaler;
  art_le_map : gmap string LabelEncoder;
  art_feature_names : list string
}.
Arguments art_model {Model Scaler} a.
Arguments art_scaler {Model Scaler} a.
Arguments art_le_map {Model Scaler} a.
Arguments art_feature_names {Model Scaler} a.
Arguments mkArtifacts {Model Scaler} _ _ _ _.

(** A one-row frame is the dictionary of its columns; an [ndarray] is the
    list of its rows. *)
Definition ndarray := list (list value).

(** ** [preprocess_input] *)

(** The dictionary literal [row = {...}]. *)
Definition base_row (data : Data) : gmap string value :=
  let dt := date data in
  <["quarter" := VInt ((datetime.month dt - 1) / 3 + 1)]>
  (<["dayofweek" := VInt (datetime.weekday dt)]>
  (<["week" := VInt (datetime.isoweek dt)]>
  (<["day" := VInt (datetime.day dt)]>
  (<["month" := VInt (datetime.month dt)]>
  (<["year" := VInt (datetime.year dt)]>
  (<["Epidemic" := VInt (epidemic data)]>
  (<["Competitor Pricing" := VFloat (competitor_pricing data)]>
  (<["Promotion" := VInt (promotion data)]>
  (<["Discount" := VFloat (discount data)]>
  (<["Price" := VFloat (price data)]>
  (<["Units Ordered" := VInt (units_ordered data)]>
  (<["Units Sold" := VInt (units_sold data)]>
  (<["Inventory Level" := VInt (inventory_level data)]> ∅))))))))))))).

(** [col_key_map], the key standing for the field of [data] it names. *)
Definition col_key_map : list (string * (Data → string)) :=
  [("Category", category); ("Region", region);
   ("Weather Condition", weather_condition); ("Seasonality", seasonality)].

(** [le_map[col]] *)
Definition getitem {A} (m : gmap string A) (k : string) : result A :=
  match m !! k with
  | Some a => Ok a
  | None => Raise (KeyError [k])
  end.

(** One turn of [for col, key in col_key_map.items()].  The lookup
    [le_map[col]] stands before the [try]; only the [ValueError] of
    [transform] is caught. *)
Definition encode_column (le_map : gmap string LabelEncoder) (data : Data)
    (row : gmap string value) (ck : string * (Data → string))
    : result (gmap string value) :=
  le ← getitem le_map ck.1;
  let raw := ck.2 data in
  match transform le [raw] with
  | Ok codes =>
      match codes with
      | c :: _ => Ok (<[ck.1 := VInt c]> row)
      | [] => Raise IndexError
      end
  | Raise ValueError => Ok (<[ck.1 := VInt 0]> row)
  | Raise e => Raise e
  end.

Fixpoint encode_columns (le_map : gmap string LabelEncoder) (data : Data)
    (cks : list (string * (Data → string))) (row : gmap string value)
    : result (gmap string value) :=
  match cks with
  | [] => Ok row
  | ck :: cks' =>
      row' ← encode_column le_map data row ck;
      encode_columns le_map data cks' row'
  end.

(** [pd.DataFrame([row])[feature_names].values]: the cells named by
    [feature_names], in that order, as a matrix of one row; [KeyError] with
    the names that are no column of the frame.  A cell is kept as the row
    holds it: the common dtype numpy gives the array is not part of the
    model. *)
Definition select_columns (row : gmap string value) (feature_names : list string)
    : result ndarray :=
  match filter (λ n, row !! n = None) feature_names with
  | [] => Ok [omap (λ n, row !! n) feature_names]
  | missing => Raise (KeyError missing)
  end.

Definition assemble_row {Model Scaler} (data : Data) (a : artifacts Model Scaler)
    : result (gmap string value) :=
  encode_columns (art_le_map a) data col_key_map (base_row data).

Definition preprocess_input {Model Scaler} (data : Data) (a : artifacts Model Scaler)
    : result ndarray :=
  row ← assemble_row data a;
  select_columns row (art_feature_names a).

(** ** Request bodies *)

(** What [request.get_json(force=True, silent=True)] returns: a parsed JSON
    value, an object being the list of its items; [JNull] is Python's [None]
    (also returned for a body that does not parse). *)
#[warnings="-register-all"]
Inductive json :=
  | JNull
  | JBool (b : bool)
  | JInt (z : Z)
  | JFloat (f : spec_float)
  | JStr (s : string)
  | JArr (items : list json)
  | JObj (items : list (string * json)).

(** [data.get(key, missing)] on a JSON object. *)
Fixpoint json_get (key : string) (o : list (string * json)) : option json :=
  match o with
  | [] => None
  | (k, v) :: o' => if decide (k = key) then Some v else json_get key o'
  end.

(** ** binary64 *)

Definition float_of_Z (z : Z) : spec_float := binary_normalize 53 1024 z 0 false.
Definition float_lt (x y : spec_float) : bool := SFltb x y.

(** ** marshmallow *)

(** The coercion each field type applies to a JSON value that is present and
    not null ([Field._deserialize]); [None] is the field's "invalid" error. *)
Class Fields := {
  Int_deserialize : json → option Z;
  Float_deserialize : json → option spec_float;
  Str_deserialize : json → option string;
  Date_deserialize : json → option datetime.date
}.

(** [required=True], or [load_default=a]. *)
Inductive presence (A : Type) :=
  | required
  | load_default (a : A).
Arguments required {A}.
Arguments load_default {A} a.

(** [Field.deserialize]: a missing key is an error or the default; a null is
    an error; a coerced value goes through the field's validator. *)
Definition deserialize {A} (de : json → option A) (validate : A → option field_error)
    (p : presence A) (raw_value : option json) : A + field_error :=
  match raw_value with
  | None => match p with required => inr Missing | load_default a => inl a end
  | Some JNull => inr Null
  | Some v =>
      match de v with
      | None => inr Invalid
      | Some a => match validate a with None => inl a | Some e => inr e end
      end
  end.

Definition store_error {A} (name : string) (r : A + field_error) : messages :=
  match r with inl _ => [] | inr e => [(name, e)] end.

Definition value_of {A} (r : A + field_error) : option A :=
  match r with inl a => Some a | inr _ => None end.

(** [validate.OneOf(choices)] *)
Definition OneOf {A} `{EqDecision A} (choices : list A) (a : A) : option field_error :=
  if decide (a ∈ choices) then None else Some NotOneOf.

(** [validate.Range(min=0)] on an integer. *)
Definition Range_min_int (lo : Z) (z : Z) : option field_error :=
  if z <? lo then Some OutOfRange else None.

(** [validate.Range(min=lo, max=hi)] on a float, bounds included. *)
Definition Range_float (lo : spec_float) (hi : option spec_float) (x : spec_float)
    : option field_error :=
  if float_lt x lo then Some OutOfRange
  else match hi with
       | Some h => if float_lt h x then Some OutOfRange else None
       | None => None
       end.

Definition VALID_CATEGORIES : list string :=
  ["Electronics"; "Clothing"; "Furniture"; "Groceries"; "Toys"].
Definition VALID_REGIONS : list string := ["North"; "South"; "East"; "West"].
Definition VALID_WEATHER : list string :=
  ["Sunny"; "Rainy"; "Snowy"; "Cloudy"; "Windy"].
Definition VALID_SEASONALITY : list string :=
  ["Spring"; "Summer"; "Autumn"; "Winter"].

(** The declared fields of [PredictSchema], in declaration order. *)
Definition schema_fields : list string :=
  ["date"; "category"; "region"; "inventory_level"; "units_sold";
   "units_ordered"; "price"; "discount"; "weather_condition"; "promotion";
   "competitor_pricing"; "seasonality"; "epidemic"].

(** Keys of the object that are no field of the schema ([unknown=RAISE], the
    default of a schema). *)
Definition unknown_errors (o : list (string * json)) : messages :=
  (λ kv, (kv.1, Unknown)) <$> filter (λ kv, kv.1 ∉ schema_fields) o.

Section Schema.
Context `{Fields}.

(** [predict_schema.load(item)] *)
Definition predict_schema_load (item : json) : result Data :=
  match item with
  | JObj o =>
      let f_date := deserialize Date_deserialize (λ _, None) required (json_get "date" o) in
      let f_category := deserialize Str_deserialize (OneOf VALID_CATEGORIES) required
                          (json_get "category" o) in
      let f_region := deserialize Str_deserialize (OneOf VALID_REGIONS) required
                        (json_get "region" o) in
      let f_inventory_level := deserialize Int_deserialize (Range_min_int 0) required
                                 (json_get "inventory_level" o) in
      let f_units_sold := deserialize Int_deserialize (Range_min_int 0) (load_default 0)
                            (json_get "units_sold" o) in
      let f_units_ordered := deserialize Int_deserialize (Range_min_int 0) required
                               (json_get "units_ordered" o) in
      let f_price := deserialize Float_deserialize (Range_float (float_of_Z 0) None)
                       required (json_get "price" o) in
      let f_discount := deserialize Float_deserialize
                          (Range_float (float_of_Z 0) (Some (float_of_Z 100)))
                          required (json_get "discount" o) in
      let f_weather_condition := deserialize Str_deserialize (OneOf VALID_WEATHER)
                                   required (json_get "weather_condition" o) in
      let f_promotion := deserialize Int_deserialize (OneOf [0; 1]) required
                           (json_get "promotion" o) in
      let f_competitor_pricing := deserialize Float_deserialize
                                    (Range_float (float_of_Z 0) None) required
                                    (json_get "competitor_pricing" o) in
      let f_seasonality := deserialize Str_deserialize (OneOf VALID_SEASONALITY)
                             required (json_get "seasonality" o) in
      let f_epidemic := deserialize Int_deserialize (OneOf [0; 1]) required
                          (json_get "epidemic" o) in
      let errors :=
        store_error "date" f_date ++ store_error "category" f_category ++
        store_error "region" f_region ++
        store_error "inventory_level" f_inventory_level ++
        store_error "units_sold" f_units_sold ++
        store_error "units_ordered" f_units_ordered ++
        store_error "price" f_price ++ store_error "discount" f_discount ++
        store_error "weather_condition" f_weather_condition ++
        store_error "promotion" f_promotion ++
        store_error "competitor_pricing" f_competitor_pricing ++
        store_error "seasonality" f_seasonality ++
        store_error "epidemic" f_epidemic ++ unknown_errors o in
      let loaded :=
        v1 ← value_of f_date; v2 ← value_of f_category; v3 ← value_of f_region;
        v4 ← value_of f_inventory_level; v5 ← value_of f_units_sold;
        v6 ← value_of f_units_ordered; v7 ← value_of f_price;
        v8 ← value_of f_discount; v9 ← value_of f_weather_condition;
        v10 ← value_of f_promotion; v11 ← value_of f_competitor_pricing;
        v12 ← value_of f_seasonality; v13 ← value_of f_epidemic;
        Some (mkData v1 v2 v3 v4 v5 v6 v7 v8 v9 v10 v11 v12 v13) in
      match errors, loaded with
      | [], Some data => Ok data
      | _, _ => Raise (ValidationError errors)
      end
  | _ => Raise (ValidationError [("_schema", InvalidInputType)])
  end.

End Schema.

(** ** The serving endpoints *)

(** A fitted estimator: [model.predict(X)] gives one forecast per row. *)
Class Regressor (Model : Type) := {
  model_predict : Model → ndarray → list spec_float
}.

(** The built-in [round(x, 2)]. *)
Class Builtins := {
  round2 : spec_float → spec_float
}.

(** One entry of the batch response; [BNull] is the placeholder [None]. *)
Inductive batch_entry :=
  | BNull
  | BOk (demand : spec_float)
  | BError (message : messages).

(** What the client receives.  An exception that leaves a view function is
    answered by the handler of status 500. *)
Inductive response :=
  | R400 (error : string)
  | R413 (size max_batch : Z)
  | R422 (details : messages)
  | R200_predict (demand : spec_float) (request_id : string)
  | R200_batch (results : list batch_entry)
  | R500 (e : exn).

(** [np.vstack(rows)] of matrices with the same number of columns. *)
Definition vstack (rows : list ndarray) : ndarray := concat rows.

(** The lists the batch loop appends to: [results, valid_indices, rows]. *)
Record batch_state := mkBatch {
  results : list batch_entry;
  valid_indices : list nat;
  rows : list ndarray
}.

Section Endpoints.
Context `{Fields} `{Builtins} {Model Scaler : Type} `{Regressor Model}.
Variable app_artifacts : artifacts Model Scaler.
Variable MAX_BATCH_SIZE : Z.

(** [POST /predict].  The second component lists, in call order, the
    matrices handed to [model.predict]. *)
Definition predict (request_id : string) (raw : json) : response * list ndarray :=
  match raw with
  | JNull => (R400 "Request body must be valid JSON", [])
  | _ =>
      match predict_schema_load raw with
      | Raise (ValidationError err) => (R422 err, [])
      | Raise e => (R500 e, [])
      | Ok data =>
          match preprocess_input data app_artifacts with
          | Raise e => (R500 e, [])
          | Ok X =>
              match model_predict (art_model app_artifacts) X with
              | pred :: _ => (R200_predict (round2 pred) request_id, [X])
              | [] => (R500 IndexError, [X])
              end
          end
      end
  end.

(** The body of the loop over [enumerate(raw)]: the [try] block, and the
    handler of [ValidationError]. *)
Definition batch_step (st : batch_state) (i : nat) (item : json) : result batch_state :=
  match
    data ← predict_schema_load item;
    X ← preprocess_input data app_artifacts;
    Ok (mkBatch (results st ++ [BNull]) (valid_indices st ++ [i]) (rows st ++ [X]))
  with
  | Raise (ValidationError err) =>
      Ok (mkBatch (results st ++ [BError err]) (valid_indices st) (rows st))
  | r => r
  end.

Fixpoint batch_loop (st : batch_state) (i : nat) (items : list json) : result batch_state :=
  match items with
  | [] => Ok st
  | item :: items' =>
      st' ← batch_step st i item;
      batch_loop st' (S i) items'
  end.

(** [for idx, pred in zip(valid_indices, preds): results[idx] = ...] *)
Definition fill_results (res : list batch_entry) (idx_preds : list (nat * spec_float))
    : list batch_entry :=
  foldl (λ res ip, <[ip.1 := BOk (round2 ip.2)]> res) res idx_preds.

(** [POST /predict/batch] *)
Definition predict_batch (raw : json) : response * list ndarray :=
  match raw with
  | JArr items =>
      if MAX_BATCH_SIZE <? Z.of_nat (length items) then
        (R413 (Z.of_nat (length items)) MAX_BATCH_SIZE, [])
      else
        match batch_loop (mkBatch [] [] []) 0%nat items with
        | Raise e => (R500 e, [])
        | Ok st =>
            match rows st with
            | [] => (R200_batch (results st), [])
            | _ =>
                let X_batch := vstack (rows st) in
                let preds := model_predict (art_model app_artifacts) X_batch in
                (R200_batch (fill_results (results st) (zip (valid_indices st) preds)),
                 [X_batch])
            end
        end
  | _ => (R400 "Batch endpoint expects a JSON array", [])
  end.

End Endpoints.

(** [int(os.getenv("MAX_BATCH_SIZE", 256))], the variable read as an
    integer when it is set. *)
Definition max_batch_size (env : option Z) : Z := default 256 env.

(** ** The training pipeline *)

(** The calendar columns [preprocess] adds to the frame, for one [Date]:
    pandas' [dt] accessors, whose [quarter] is [(month - 1) // 3 + 1]. *)
Definition dt_quarter (d : datetime.date) : Z := (datetime.month d - 1) / 3 + 1.

Definition preprocess_calendar (d : datetime.date) : list (string * Z) :=
  [("year", datetime.year d); ("month", datetime.month d); ("day", datetime.day d);
   ("week", datetime.isoweek d); ("dayofweek", datetime.weekday d);
   ("quarter", dt_quarter d)].

(** [int(x)] of a float: truncation towards zero. *)
Definition int_of_float (x : spec_float) : result Z :=
  match x with
  | S754_zero _ => Ok 0
  | S754_finite s m e =>
      let a := if 0 <=? e then Z.pos m * 2 ^ e else Z.pos m / 2 ^ (- e) in
      Ok (if s then - a else a)
  | S754_nan => Raise ValueError
  | S754_infinity _ => Raise OverflowError
  end.

(** The literal [0.2]: the binary64 value nearest to one fifth. *)
Definition test_ratio_default : spec_float := S754_finite false 7205759403792794 (-55).

(** Where a slice bound [k] falls in a sequence of [n] items: a negative
    bound counts from the end, and bounds are clipped to the sequence. *)
Definition slice_bound (n : nat) (k : Z) : nat :=
  Z.to_nat (if k <? 0 then Z.max 0 (Z.of_nat n + k) else Z.min k (Z.of_nat n)).

(** [s.iloc[:k]] and [s.iloc[k:]] *)
Definition iloc_to {A} (s : list A) (k : Z) : list A := take (slice_bound (length s) k) s.
Definition iloc_from {A} (s : list A) (k : Z) : list A := drop (slice_bound (length s) k) s.

(** [int(n * (1 - test_ratio))] *)
Definition split_index (n : Z) (test_ratio : spec_float) : result Z :=
  int_of_float (SFmul 53 1024 (float_of_Z n) (SFsub 53 1024 (float_of_Z 1) test_ratio)).

Definition time_split {A B} (X : list A) (y : list B) (test_ratio : spec_float)
    : result (list A * list A * list B * list B) :=
  let n := Z.of_nat (length X) in
  split_idx ← split_index n test_ratio;
  Ok (iloc_to X split_idx, iloc_from X split_idx, iloc_to y split_idx, iloc_from y split_idx).

(** One row of the comparison table. *)
Record metrics_row := mkRow {
  model : string;
  MAE : spec_float;
  RMSE : spec_float;
  R2 : spec_float
}.

(** The estimators, the scaler, the metrics and the searches of
    scikit-learn and xgboost that the pipeline calls. *)
Class Sklearn (Model Scaler : Type) := {
  StandardScaler_fit : ndarray → Scaler;
  StandardScaler_transform : Scaler → ndarray → ndarray;
  LinearRegression_fit : ndarray → list value → Model;
  RandomForestRegressor_fit : ndarray → list value → Model;
  XGBRegressor_fit : ndarray → list value → ndarray → list value → Model;
  mean_absolute_error : list value → list spec_float → spec_float;
  mean_squared_error : list value → list spec_float → spec_float;
  r2_score : list value → list spec_float → spec_float;
  np_sqrt : spec_float → spec_float;
  tune_xgboost : ndarray → list value → ndarray → list value → Model;
  tune_random_forest : ndarray → list value → Model
}.

(** [s in t] on strings. *)
Fixpoint str_contains (s t : string) : bool :=
  String.prefix s t ||
  match t with
  | EmptyString => false
  | String _ t' => str_contains s t'
  end.

(** [np.argmin]: the first position of the least value of [x :: l], the scan
    being at position [i] with least value [best] found at [best_i]. *)
Fixpoint argmin_from (best_i : nat) (best : spec_float) (i : nat) (l : list spec_float)
    : nat :=
  match l with
  | [] => best_i
  | x :: l' =>
      if float_lt x best then argmin_from i x (S i) l'
      else argmin_from best_i best (S i) l'
  end.

Definition is_nan (x : spec_float) : bool :=
  match x with S754_nan => true | _ => false end.

(** The first value of [col] that is no NaN, with its position counted from
    [i] and the values after it. *)
Fixpoint first_valid (i : nat) (col : list spec_float)
    : option (nat * spec_float * list spec_float) :=
  match col with
  | [] => None
  | x :: l => if is_nan x then first_valid (S i) l else Some (i, x, l)
  end.

(** [Series.idxmin()] over a default integer index: missing values are
    skipped, and the label is the first position of the least of the others
    (a NaN is below nothing, so the scan passes over it).  A column without
    a value that is no NaN raises [ValueError], as pandas 3 does (earlier
    versions return NaN there, on which [loc] raises). *)
Definition idxmin (col : list spec_float) : result nat :=
  match first_valid 0 col with
  | None => Raise ValueError
  | Some (i, x, l) => Ok (argmin_from i x (S i) l)
  end.

(** [results_df.loc[label]] *)
Definition loc (results_df : list metrics_row) (label : nat) : result metrics_row :=
  match results_df !! label with
  | Some r => Ok r
  | None => Raise (KeyError [])
  end.

(** [results_df["RMSE"]]: the frame [pd.DataFrame(results)] of no record has
    no column. *)
Definition column_RMSE (results_df : list metrics_row) : result (list spec_float) :=
  match results_df with
  | [] => Raise (KeyError ["RMSE"])
  | _ => Ok (RMSE <$> results_df)
  end.

Definition pick_best (results_df : list metrics_row) : result string :=
  col ← column_RMSE results_df;
  label ← idxmin col;
  best_row ← loc results_df label;
  Ok (model best_row).

Section Training.
Context {Model Scaler : Type} `{Regressor Model} `{Sklearn Model Scaler}.

Definition scale (X_train X_test : ndarray) : ndarray * ndarray * Scaler :=
  let scaler := StandardScaler_fit X_train in
  (StandardScaler_transform scaler X_train, StandardScaler_transform scaler X_test, scaler).

Definition evaluate (name : string) (y_true : list value) (y_pred : list spec_float)
    : metrics_row :=
  mkRow name (mean_absolute_error y_true y_pred)
        (np_sqrt (mean_squared_error y_true y_pred)) (r2_score y_true y_pred).

Definition train_models (X_train X_test : ndarray) (y_train y_test : list value)
    (X_train_sc X_test_sc : ndarray) : list metrics_row * Model * Model * Model :=
  let lr := LinearRegression_fit X_train_sc y_train in
  let results := [evaluate "LinearRegression" y_test (model_predict lr X_test_sc)] in
  let rf := RandomForestRegressor_fit X_train y_train in
  let results := results ++ [evaluate "RandomForest" y_test (model_predict rf X_test)] in
  let xgb := XGBRegressor_fit X_train y_train X_test y_test in
  let results := results ++ [evaluate "XGBoost" y_test (model_predict xgb X_test)] in
  (results, lr, rf, xgb).

(** [main], from the frame, the target and the encoders that [preprocess]
    returned to the bundle that [save_artifacts] writes. *)
Definition main (X : ndarray) (y : list value) (le_map : gmap string LabelEncoder)
    (feature_names : list string) : result (artifacts Model Scaler) :=
  '(X_train, X_test, y_train, y_test) ← time_split X y test_ratio_default;
  let '(X_train_sc, X_test_sc, scaler) := scale X_train X_test in
  let '(results_df, lr, rf, xgb) :=
    train_models X_train X_test y_train y_test X_train_sc X_test_sc in
  best_name ← pick_best results_df;
  let best_model :=
    if str_contains "XGBoost" best_name then tune_xgboost X_train y_train X_test y_test
    else if str_contains "RandomForest" best_name then tune_random_forest X_train y_train
    else lr in
  Ok (mkArtifacts best_model scaler le_map feature_names).

End Training.

(** * Vocabulary of the statements *)

(** The eighteen keys of the row [preprocess_input] assembles: the fourteen
    of the dictionary literal, then the four the encoding loop adds. *)
Definition row_columns : list string :=
  ["Inventory Level"; "Units Sold"; "Units Ordered"; "Price"; "Discount";
   "Promotion"; "Competitor Pricing"; "Epidemic"; "year"; "month"; "day";
   "week"; "dayofweek"; "quarter"; "Category"; "Region"; "Weather Condition";
   "Seasonality"].

(** The encoder map holds an encoder for each of the four categorical
    columns. *)
Definition encoders_present (le_map : gmap string LabelEncoder) : Prop :=
  Forall (λ col, is_Some (le_map !! col)) col_key_map.*1.

(** A bundle [preprocess_input] can serve: its encoders are present and its
    feature names are keys of the assembled row. *)
Definition bundle_complete {Model Scaler} (a : artifacts Model Scaler) : Prop :=
  encoders_present (art_le_map a) ∧ Forall (λ n, n ∈ row_columns) (art_feature_names a).

(** The bundle [a] with another scaler in it. *)
Definition with_scaler {Model Scaler} (a : artifacts Model Scaler) (scaler : Scaler)
    : artifacts Model Scaler :=
  mkArtifacts (art_model a) scaler (art_le_map a) (art_feature_names a).

(** The code [encode_column] stores for a raw label. *)
Definition code_of (le : LabelEncoder) (raw : string) : Z :=
  default 0 (index_of raw (classes_ le)).

(** The matrices the batch loop collects: one per item that loads and
    preprocesses, in input order. *)
Definition valid_rows `{Fields} {Model Scaler} (a : artifacts Model Scaler)
    (items : list json) : list ndarray :=
  omap (λ item, match predict_schema_load item with
                | Ok data => match preprocess_input data a with
                             | Ok X => Some X
                             | Raise _ => None
                             end
                | Raise _ => None
                end) items.

(** The positions, counted from [i], of the items that load. *)
Fixpoint valid_positions `{Fields} (i : nat) (items : list json) : list nat :=
  match items with
  | [] => []
  | item :: items' =>
      match predict_schema_load item with
      | Ok _ => i :: valid_positions (S i) items'
      | Raise _ => valid_positions (S i) items'
      end
  end.

(** The entry the batch loop appends for an item. *)
Definition loop_entry `{Fields} (item : json) : batch_entry :=
  match predict_schema_load item with
  | Raise (ValidationError err) => BError err
  | _ => BNull
  end.

(** The entry the batch response holds for an item. *)
Definition final_entry `{Fields} `{Builtins} {Model Scaler} `{Regressor Model}
    (a : artifacts Model Scaler) (item : json) : batch_entry :=
  match predict_schema_load item with
  | Ok data =>
      match preprocess_input data a with
      | Ok X => match model_predict (art_model a) X with
                | pred :: _ => BOk (round2 pred)
                | [] => BNull
                end
      | Raise _ => BNull
      end
  | Raise (ValidationError err) => BError err
  | Raise _ => BNull
  end.

(** The position of a float that is no NaN in the order of the reals: its
    class, then exponent and mantissa, as floats in canonical form compare. *)
Definition float_rank (x : spec_float) : Z * Z * Z :=
  match x with
  | S754_infinity true => (-2, 0, 0)
  | S754_finite true m e => (-1, - e, - Z.pos m)
  | S754_zero _ => (0, 0, 0)
  | S754_finite false m e => (1, e, Z.pos m)
  | S754_infinity false => (2, 0, 0)
  | S754_nan => (3, 0, 0)
  end.

Definition rank_lt (a b : Z * Z * Z) : Prop :=
  a.1.1 < b.1.1 ∨ (a.1.1 = b.1.1 ∧ (a.1.2 < b.1.2 ∨ (a.1.2 = b.1.2 ∧ a.2 < b.2))).

Definition no_nan (col : list spec_float) : Prop := Forall (λ x, is_nan x = false) col.

(** No RMSE of the table is a NaN. *)
Definition no_nan_rmse (results_df : list metrics_row) : Prop :=
  no_nan (RMSE <$> results_df).

(** The number of items before position [i] that load. *)
Definition valid_rank `{Fields} (items : list json) (i : nat) : nat :=
  length (valid_positions 0 (take i items)).

(** The entry of a valid item whose forecast is [pred], if the model gave
    one. *)
Definition entry_of_pred `{Builtins} (pred : option spec_float) : batch_entry :=
  match pred with
  | Some p => BOk (round2 p)
  | None => BNull
  end.

(** The entries of the items, the valid ones taking the forecasts of
    [preds] in order. *)
Fixpoint aligned_entries `{Fields} `{Builtins} (items : list json) (preds : list spec_float)
    : list batch_entry :=
  match items with
  | [] => []
  | item :: items' =>
      match predict_schema_load item with
      | Ok _ => entry_of_pred (head preds) :: aligned_entries items' (tail preds)
      | Raise _ => loop_entry item :: aligned_entries items' preds
      end
  end.

(** The leap years of the Gregorian calendar. *)
Definition leap_year (y : Z) : bool :=
  (y mod 4 =? 0) && (negb (y mod 100 =? 0) || (y mod 400 =? 0)).

(** The days of month [m] of year [y] in the Gregorian calendar. *)
Definition days_in_month (y m : Z) : Z :=
  if m =? 2 then (if leap_year y then 29 else 28)
  else if (m =? 4) || (m =? 6) || (m =? 9) || (m =? 11) then 30
  else 31.

(** The dates a [datetime.date] can hold. *)
Definition valid_date (dt : datetime.date) : Prop :=
  1 ≤ datetime.year dt ≤ 9999 ∧ 1 ≤ datetime.month dt ≤ 12 ∧
  1 ≤ datetime.day dt ≤ days_in_month (datetime.year dt) (datetime.month dt).

(** The day after [dt] in the Gregorian calendar. *)
Definition tomorrow (dt : datetime.date) : datetime.date :=
  let '(datetime.mkdate y m d) := dt in
  if d <? days_in_month y m then datetime.mkdate y m (d + 1)
  else if m <? 12 then datetime.mkdate y (m + 1) 1
  else datetime.mkdate (y + 1) 1 1.

(** The day number of the Thursday in the week, from Monday to Sunday, of
    [dt]. *)
Definition thursday_of (dt : datetime.date) : Z :=
  datetime.toordinal dt - datetime.weekday dt + 3.

(** The estimators of [sk] with other fits of the two tree models that are
    compared. *)
Definition with_tree_fits {Model Scaler} (sk : Sklearn Model Scaler)
    (rf_fit : ndarray → list value → Model)
    (xgb_fit : ndarray → list value → ndarray → list value → Model)
    : Sklearn Model Scaler := {|
  StandardScaler_fit := @StandardScaler_fit _ _ sk;
  StandardScaler_transform := @StandardScaler_transform _ _ sk;
  LinearRegression_fit := @LinearRegression_fit _ _ sk;
  RandomForestRegressor_fit := rf_fit;
  XGBRegressor_fit := xgb_fit;
  mean_absolute_error := @mean_absolute_error _ _ sk;
  mean_squared_error := @mean_squared_error _ _ sk;
  r2_score := @r2_score _ _ sk;
  np_sqrt := @np_sqrt _ _ sk;
  tune_xgboost := @tune_xgboost _ _ sk;
  tune_random_forest := @tune_random_forest _ _ sk
|}.

(** The comparison table of [main] for a frame whose training part has [k]
    records. *)
Definition comparison_table {Model Scaler} `{Regressor Model} (sk : Sklearn Model Scaler)
    (k : nat) (X : ndarray) (y : list value) : list metrics_row :=
  let scaler := @StandardScaler_fit _ _ sk (take k X) in
  (@train_models _ _ _ sk (take k X) (drop k X) (take k y) (drop k y)
     (@StandardScaler_transform _ _ sk scaler (take k X))
     (@StandardScaler_transform _ _ sk scaler (drop k X))).1.1.1.

(** ** Instances of the parameters, to run the model on examples *)

Module Examples.

Definition digit (c : ascii) : option Z :=
  let n := Z.of_nat (nat_of_ascii c) - 48 in
  if (0 <=? n) && (n <=? 9) then Some n else None.

(** [strptime(s, "%Y-%m-%d").date()] on the ten-character form: a day that
    the calendar does not have is refused. *)
Definition strptime_ymd (s : string) : option datetime.date :=
  match s with
  | String y1 (String y2 (String y3 (String y4 (String "-"
    (String m1 (String m2 (String "-" (String d1 (String d2 EmptyString))))))))) =>
      a ← digit y1; b ← digit y2; c ← digit y3; d ← digit y4;
      e ← digit m1; f ← digit m2; g ← digit d1; h ← digit d2;
      let y := ((a * 10 + b) * 10 + c) * 10 + d in
      let m := e * 10 + f in
      let dd := g * 10 + h in
      if (1 <=? y) && (1 <=? m) && (m <=? 12) && (1 <=? dd) && (dd <=? days_in_month y m)
      then Some (datetime.mkdate y m dd) else None
  | _ => None
  end.

(** Field types that accept a JSON value of their own kind, and an integer
    where a float is expected. *)
Definition strict_fields : Fields := {|
  Int_deserialize j := match j with JInt z => Some z | _ => None end;
  Float_deserialize j :=
    match j with
    | JFloat f => Some f
    | JInt z => Some (float_of_Z z)
    | _ => None
    end;
  Str_deserialize j := match j with JStr s => Some s | _ => None end;
  Date_deserialize j := match j with JStr s => strptime_ymd s | _ => None end
|}.

Definition identity_round : Builtins := {| round2 x := x |}.

Definition cell_float (v : value) : spec_float :=
  match v with VInt z => float_of_Z z | VFloat f => f end.

(** A regressor that forecasts the cell in column [m] of every row. *)
Definition column_regressor : Regressor nat := {|
  model_predict m X := (λ row, cell_float (default (VInt 0) (row !! m))) <$> X
|}.

(** Estimators that fit the column regressor of column 0, 1 and 2, a scaler
    that leaves its input as it is, and metrics that take the first forecast
    for the error. *)
Definition toy_sklearn : Sklearn nat unit := {|
  StandardScaler_fit _ := tt;
  StandardScaler_transform _ X := X;
  LinearRegression_fit _ _ := 0%nat;
  RandomForestRegressor_fit _ _ := 1%nat;
  XGBRegressor_fit _ _ _ _ := 2%nat;
  mean_absolute_error _ p := default (float_of_Z 0) (head p);
  mean_squared_error _ p := default (float_of_Z 0) (head p);
  r2_score _ p := default (float_of_Z 0) (head p);
  np_sqrt x := x;
  tune_xgboost _ _ _ _ := 2%nat;
  tune_random_forest _ _ := 1%nat
|}.

Definition request : list (string * json) :=
  [("date", JStr "2024-03-15"); ("category", JStr "Toys"); ("region", JStr "North");
   ("inventory_level", JInt 120); ("units_sold", JInt 30); ("units_ordered", JInt 50);
   ("price", JFloat (float_of_Z 20)); ("discount", JInt 10);
   ("weather_condition", JStr "Sunny"); ("promotion", JInt 1);
   ("competitor_pricing", JInt 19); ("seasonality", JStr "Spring");
   ("epidemic", JInt 0)].

(** The same request with a discount out of range. *)
Definition bad_request : list (string * json) :=
  <[7%nat := ("discount", JInt 250)]> request.

Definition request_data : Data :=
  mkData (datetime.mkdate 2024 3 15) "Toys" "North" 120 30 50 (float_of_Z 20)
         (float_of_Z 10) "Sunny" 1 (float_of_Z 19) "Spring" 0.

(** Encoders fitted on data in which no toy was sold. *)
Definition le_map : gmap string LabelEncoder :=
  <["Seasonality" := mkLabelEncoder ["Autumn"; "Spring"; "Summer"; "Winter"]]>
  (<["Weather Condition" := mkLabelEncoder ["Cloudy"; "Rainy"; "Snowy"; "Sunny"; "Windy"]]>
  (<["Region" := mkLabelEncoder ["East"; "North"; "South"; "West"]]>
  (<["Category" := mkLabelEncoder ["Clothing"; "Electronics"; "Furniture"; "Groceries"]]> ∅))).

Definition feature_names : list string :=
  ["Category"; "Region"; "Inventory Level"; "Units Sold"; "Units Ordered"; "Price";
   "Discount"; "Weather Condition"; "Promotion"; "Competitor Pricing"; "Seasonality";
   "Epidemic"; "year"; "month"; "day"; "week"; "dayofweek"; "quarter"].

Definition bundle : artifacts nat unit := mkArtifacts 2%nat tt le_map feature_names.

(** A bundle whose feature list names a column the row does not have. *)
Definition stale_bundle : artifacts nat unit :=
  mkArtifacts 2%nat tt le_map ("Store ID" :: feature_names).

(** A comparison table in which the three metrics rank the models
    differently. *)
Definition table : list metrics_row :=
  [mkRow "LinearRegression" (float_of_Z 3) (float_of_Z 9) (float_of_Z 1);
   mkRow "RandomForest" (float_of_Z 5) (float_of_Z 7) (float_of_Z 2);
   mkRow "XGBoost" (float_of_Z 4) (float_of_Z 8) (float_of_Z 3)].

End Examples.

(** ** More instances and examples *)

Module Fixtures.

(** Estimators as in [Examples.toy_sklearn], whose searches return other
    models (7 and 8) than the fits. *)
Definition searching_sklearn : Sklearn nat unit := {|
  StandardScaler_fit _ := tt;
  StandardScaler_transform _ X := X;
  LinearRegression_fit _ _ := 0%nat;
  RandomForestRegressor_fit _ _ := 1%nat;
  XGBRegressor_fit _ _ _ _ := 2%nat;
  mean_absolute_error _ p := default (float_of_Z 0) (head p);
  mean_squared_error _ p := default (float_of_Z 0) (head p);
  r2_score _ p := default (float_of_Z 0) (head p);
  np_sqrt x := x;
  tune_xgboost _ _ _ _ := 8%nat;
  tune_random_forest _ _ := 7%nat
|}.

(** Two records, the first for training and the second for the test: the
    forecast of the forest, the cell of column 1, is the least, and the
    metrics of the examples take the first forecast for the error. *)
Definition forest_wins : ndarray :=
  [[VInt 1; VInt 1; VInt 1; VInt 1]; [VInt 5; VInt 2; VInt 5; VInt 2]].

End Fixtures.

(** * Lemmas *)

(** ** The feature transform *)

Lemma transform_singleton le raw :
  transform le [raw] =
  match index_of raw (classes_ le) with
  | Some i => Ok [i]
  | None => Raise ValueError
  end.
Proof. simpl. by destruct (index_of raw (classes_ le)). Qed.

Lemma encode_column_Some le_map data row col key le :
  le_map !! col = Some le →
  encode_column le_map data row (col, key) = Ok (<[col := VInt (code_of le (key data))]> row).
Proof.
  intros Hle. unfold encode_column, getitem, code_of. simpl. rewrite Hle. simpl.
  change (mbind ?f (Ok ?x)) with (f x). cbv beta.
  destruct (index_of (key data) (classes_ le)); reflexivity.
Qed.

Lemma encode_column_None le_map data row col key :
  le_map !! col = None →
  encode_column le_map data row (col, key) = Raise (KeyError [col]).
Proof. intros Hle. unfold encode_column, getitem. simpl. by rewrite Hle. Qed.

Lemma base_row_dom data : dom (base_row data) = list_to_set (take 14 row_columns).
Proof. unfold base_row. rewrite !dom_insert_L, dom_empty_L. simpl. set_solver. Qed.

Lemma encode_columns_lookup_ne le_map data cks row row' n :
  encode_columns le_map data cks row = Ok row' →
  n ∉ cks.*1 → row' !! n = row !! n.
Proof.
  revert row. induction cks as [|[col key] cks IH]; intros row Hrun Hn; simpl in *.
  - by inversion Hrun.
  - destruct (encode_column le_map data row (col, key)) as [r1|e] eqn:Hstep;
      [|discriminate].
    change (encode_columns le_map data cks r1 = Ok row') in Hrun.
    apply not_elem_of_cons in Hn as [Hne Hn].
    rewrite (IH _ Hrun Hn).
    destruct (le_map !! col) as [le|] eqn:Hle.
    + rewrite (encode_column_Some _ _ _ _ _ _ Hle) in Hstep. inversion Hstep.
      by rewrite lookup_insert_ne.
    + by rewrite (encode_column_None _ _ _ _ _ Hle) in Hstep.
Qed.

Lemma encode_columns_dom le_map data cks row row' :
  encode_columns le_map data cks row = Ok row' →
  dom row' = dom row ∪ list_to_set cks.*1.
Proof.
  revert row. induction cks as [|[col key] cks IH]; intros row Hrun; simpl in *.
  - inversion Hrun. set_solver.
  - destruct (encode_column le_map data row (col, key)) as [r1|e] eqn:Hstep;
      [|discriminate].
    change (encode_columns le_map data cks r1 = Ok row') in Hrun.
    rewrite (IH _ Hrun).
    destruct (le_map !! col) as [le|] eqn:Hle.
    + rewrite (encode_column_Some _ _ _ _ _ _ Hle) in Hstep. inversion Hstep.
      rewrite dom_insert_L. set_solver.
    + by rewrite (encode_column_None _ _ _ _ _ Hle) in Hstep.
Qed.

Lemma encode_columns_total le_map data cks row :
  (∀ col, col ∈ cks.*1 → is_Some (le_map !! col)) →
  ∃ row', encode_columns le_map data cks row = Ok row'.
Proof.
  revert row. induction cks as [|[col key] cks IH]; intros row Hall; simpl.
  - eauto.
  - destruct (Hall col) as [le Hle]; [set_solver|].
    rewrite (encode_column_Some _ _ _ _ _ _ Hle).
    apply IH. intros c Hc. apply Hall. set_solver.
Qed.

Lemma encode_columns_missing le_map data cks row :
  ¬ (∀ col, col ∈ cks.*1 → is_Some (le_map !! col)) →
  ∃ col, col ∈ cks.*1 ∧ le_map !! col = None ∧
         encode_columns le_map data cks row = Raise (KeyError [col]).
Proof.
  revert row. induction cks as [|[col key] cks IH]; intros row Hnot; simpl.
  - destruct Hnot. intros c Hc. by apply elem_of_nil in Hc.
  - destruct (le_map !! col) as [le|] eqn:Hle.
    + rewrite (encode_column_Some _ _ _ _ _ _ Hle).
      destruct (IH (<[col:=VInt (code_of le (key data))]> row)) as (c & Hc & Hn & Hr).
      { intros Hall. apply Hnot. intros c Hc.
        apply elem_of_cons in Hc as [Heq|Hc]; [subst c; by exists le | by apply Hall]. }
      exists c. split; [set_solver|]. split; [done|]. exact Hr.
    + exists col. split; [set_solver|]. split; [done|].
      by rewrite (encode_column_None _ _ _ _ _ Hle).
Qed.

Lemma assemble_row_dom {Model Scaler} data (a : artifacts Model Scaler) row :
  assemble_row data a = Ok row → dom row = list_to_set row_columns.
Proof.
  intros Hrun. unfold assemble_row in Hrun.
  rewrite (encode_columns_dom _ _ _ _ _ Hrun), base_row_dom. simpl. set_solver.
Qed.

Lemma omap_lookup_all (row : gmap string value) (fn : list string) :
  Forall (λ n, is_Some (row !! n)) fn →
  length (omap (λ n, row !! n) fn) = length fn ∧
  ∀ (i : nat) name, fn !! i = Some name → omap (λ n, row !! n) fn !! i = row !! name.
Proof.
  induction 1 as [|n fn [x Hx] _ [IHlen IH]].
  - split; [done|]. intros i name Hi. by rewrite lookup_nil in Hi.
  - assert (omap (λ n, row !! n) (n :: fn) = x :: omap (λ n, row !! n) fn) as ->.
    { simpl. by rewrite Hx. }
    split; [simpl; by f_equal|].
    intros [|i] name Hi; simpl in *.
    + by inversion Hi; subst.
    + by apply IH.
Qed.

Lemma filter_missing_nil (row : gmap string value) (fn : list string) :
  filter (λ n, row !! n = None) fn = [] ↔ Forall (λ n, is_Some (row !! n)) fn.
Proof.
  induction fn as [|n fn IH].
  - split; [constructor | done].
  - rewrite filter_cons. destruct (decide (row !! n = None)) as [Hn|Hn].
    + split; [done|]. intros Hall. apply Forall_cons in Hall as [[x Hx] _]. congruence.
    + rewrite IH, Forall_cons. split; [|tauto].
      intros Hall. split; [|done]. by apply not_eq_None_Some.
Qed.

Lemma select_columns_Ok row fn X :
  select_columns row fn = Ok X →
  ∃ v, X = [v] ∧ length v = length fn ∧
       ∀ (i : nat) name, fn !! i = Some name → is_Some (row !! name) ∧ v !! i = row !! name.
Proof.
  unfold select_columns. intros Hsel.
  destruct (filter (λ n, row !! n = None) fn) as [|m ms] eqn:Hf; [|discriminate].
  apply filter_missing_nil in Hf. inversion Hsel; subst X.
  destruct (omap_lookup_all row fn Hf) as [Hlen Hlook].
  eexists. split; [done|]. split; [done|].
  intros i name Hi. split; [|by apply Hlook].
  rewrite Forall_forall in Hf. apply Hf. by eapply list_elem_of_lookup_2.
Qed.

Lemma select_columns_total row fn :
  (∀ n, n ∈ fn → is_Some (row !! n)) →
  select_columns row fn = Ok [omap (λ n, row !! n) fn].
Proof.
  intros Hall. unfold select_columns.
  assert (filter (λ n, row !! n = None) fn = []) as ->; [|done].
  apply filter_missing_nil, Forall_forall, Hall.
Qed.

Lemma select_columns_missing row fn n :
  n ∈ fn → row !! n = None →
  ∃ missing, n ∈ missing ∧ select_columns row fn = Raise (KeyError missing).
Proof.
  intros Hn Hnone. unfold select_columns.
  assert (n ∈ filter (λ n, row !! n = None) fn) as Hin by (by apply list_elem_of_filter).
  destruct (filter (λ n, row !! n = None) fn) as [|m ms] eqn:Hf.
  - by apply elem_of_nil in Hin.
  - eauto.
Qed.

Lemma json_get_list_to_map key (o : list (string * json)) :
  json_get key o = (list_to_map o : gmap string json) !! key.
Proof.
  induction o as [|[k v] o IH]; simpl.
  - by rewrite lookup_empty.
  - destruct (decide (k = key)) as [->|Hne].
    + by rewrite lookup_insert_eq.
    + by rewrite lookup_insert_ne.
Qed.

Lemma json_get_Permutation key (o o' : list (string * json)) :
  NoDup o.*1 → o ≡ₚ o' → json_get key o = json_get key o'.
Proof.
  intros Hnd Hp. rewrite !json_get_list_to_map.
  by rewrite (list_to_map_proper (M:=gmap string) o o' Hnd Hp).
Qed.

Lemma unknown_errors_Permutation (o o' : list (string * json)) :
  o ≡ₚ o' → unknown_errors o = [] → unknown_errors o' = [].
Proof.
  intros Hp Hnil. apply Permutation_nil_r. rewrite <- Hnil.
  unfold unknown_errors. by rewrite Hp.
Qed.

Lemma load_outcome_Ok (errors : messages) (loaded : option Data) d :
  match errors, loaded with
  | [], Some data => Ok data
  | _, _ => Raise (ValidationError errors)
  end = Ok d → errors = [] ∧ loaded = Some d.
Proof. destruct errors, loaded; intros Heq; by inversion Heq. Qed.

Lemma predict_schema_load_unknown `{Fields} o data :
  predict_schema_load (JObj o) = Ok data → unknown_errors o = [].
Proof.
  unfold predict_schema_load. intros Hload.
  apply load_outcome_Ok in Hload as [Herr _].
  repeat (apply app_eq_nil in Herr as [_ Herr]). exact Herr.
Qed.

Lemma predict_schema_load_Permutation `{Fields} o o' data :
  NoDup o.*1 → o ≡ₚ o' →
  predict_schema_load (JObj o) = Ok data → predict_schema_load (JObj o') = Ok data.
Proof.
  intros Hnd Hp Hload.
  pose proof (predict_schema_load_unknown _ _ Hload) as Hunk.
  pose proof (unknown_errors_Permutation _ _ Hp Hunk) as Hunk'.
  assert (∀ k, json_get k o' = json_get k o) as Hget.
  { intros k. symmetry. by apply json_get_Permutation. }
  unfold predict_schema_load in *. rewrite !Hget, Hunk'. rewrite Hunk in Hload.
  exact Hload.
Qed.

Lemma predict_schema_load_JObj `{Fields} item data :
  predict_schema_load item = Ok data → ∃ o, item = JObj o.
Proof. destruct item; try discriminate. eauto. Qed.

Lemma encode_columns_raises le_map data cks row e :
  encode_columns le_map data cks row = Raise e → ∃ ms, e = KeyError ms.
Proof.
  revert row. induction cks as [|[col key] cks IH]; intros row Hrun; simpl in *.
  - discriminate.
  - destruct (le_map !! col) as [le|] eqn:Hle.
    + rewrite (encode_column_Some _ _ _ _ _ _ Hle) in Hrun. by eapply IH.
    + rewrite (encode_column_None _ _ _ _ _ Hle) in Hrun. inversion Hrun. eauto.
Qed.

Lemma preprocess_input_raises {Model Scaler} data (a : artifacts Model Scaler) e :
  preprocess_input data a = Raise e → ∃ ms, e = KeyError ms.
Proof.
  unfold preprocess_input, assemble_row. intros Hrun.
  destruct (encode_columns _ _ _ _) as [row|e'] eqn:Henc.
  - change (select_columns row (art_feature_names a) = Raise e) in Hrun.
    unfold select_columns in Hrun.
    destruct (filter _ _); inversion Hrun; eauto.
  - inversion Hrun; subst. by eapply encode_columns_raises.
Qed.

Lemma preprocess_input_Ok {Model Scaler} data (a : artifacts Model Scaler) X :
  preprocess_input data a = Ok X →
  ∃ row v, assemble_row data a = Ok row ∧ X = [v] ∧
    length v = length (art_feature_names a) ∧
    ∀ (i : nat) name, art_feature_names a !! i = Some name →
      is_Some (row !! name) ∧ v !! i = row !! name.
Proof.
  unfold preprocess_input. intros Hrun.
  destruct (assemble_row data a) as [row|e'] eqn:Hrow; [|discriminate].
  change (select_columns row (art_feature_names a) = Ok X) in Hrun.
  apply select_columns_Ok in Hrun as (v & -> & Hlen & Hcols).
  by exists row, v.
Qed.

Lemma preprocess_input_total {Model Scaler} data (a : artifacts Model Scaler) :
  bundle_complete a → ∃ X, preprocess_input data a = Ok X.
Proof.
  intros [Henc Hfn]. unfold preprocess_input.
  unfold encoders_present in Henc. rewrite Forall_forall in Henc, Hfn.
  destruct (encode_columns_total (art_le_map a) data col_key_map (base_row data) Henc)
    as [row Hrow].
  unfold assemble_row at 1. rewrite Hrow.
  change (∃ X, select_columns row (art_feature_names a) = Ok X).
  eexists. apply select_columns_total. intros n Hn.
  apply elem_of_dom. rewrite (assemble_row_dom data a row Hrow).
  apply elem_of_list_to_set. by apply Hfn.
Qed.

Lemma load_outcome_Raise (errors : messages) (loaded : option Data) e :
  match errors, loaded with
  | [], Some data => Ok data
  | _, _ => Raise (ValidationError errors)
  end = Raise e → e = ValidationError errors.
Proof. destruct errors, loaded; intros Heq; by inversion Heq. Qed.

Lemma predict_schema_load_raises `{Fields} item e :
  predict_schema_load item = Raise e → ∃ err, e = ValidationError err.
Proof.
  unfold predict_schema_load. destruct item; intros Heq;
    try (inversion Heq; eauto; fail).
  apply load_outcome_Raise in Heq. eauto.
Qed.

(** ** The batch loop *)

Section BatchProofs.
Context `{Fields} `{Builtins} {Model Scaler : Type} `{Regressor Model}.
Variable a : artifacts Model Scaler.

Lemma batch_step_invalid st i item err :
  predict_schema_load item = Raise (ValidationError err) →
  batch_step a st i item = Ok (mkBatch (results st ++ [BError err]) (valid_indices st) (rows st)).
Proof. intros Hl. unfold batch_step. by rewrite Hl. Qed.

Lemma batch_step_valid st i item data X :
  predict_schema_load item = Ok data → preprocess_input data a = Ok X →
  batch_step a st i item =
  Ok (mkBatch (results st ++ [BNull]) (valid_indices st ++ [i]) (rows st ++ [X])).
Proof.
  intros Hl Hp. unfold batch_step. rewrite Hl.
  change (mbind ?f (Ok ?x)) with (f x). cbv beta. by rewrite Hp.
Qed.

Lemma batch_step_uncaught st i item data e :
  predict_schema_load item = Ok data → preprocess_input data a = Raise e →
  batch_step a st i item = Raise e.
Proof.
  intros Hl Hp. unfold batch_step. rewrite Hl.
  change (mbind ?f (Ok ?x)) with (f x). cbv beta. rewrite Hp.
  apply preprocess_input_raises in Hp as [ms ->]. done.
Qed.

Lemma batch_loop_Ok st i items st' :
  batch_loop a st i items = Ok st' →
  results st' = results st ++ (loop_entry <$> items) ∧
  valid_indices st' = valid_indices st ++ valid_positions i items ∧
  rows st' = rows st ++ valid_rows a items.
Proof.
  revert st i. induction items as [|item items IH]; intros st i Hrun; simpl in Hrun.
  - inversion Hrun; subst. simpl. rewrite !app_nil_r. by repeat split.
  - destruct (batch_step a st i item) as [st1|e] eqn:Hstep; [|discriminate].
    change (batch_loop a st1 (S i) items = Ok st') in Hrun.
    destruct (IH _ _ Hrun) as (Hres & Hidx & Hrows).
    unfold loop_entry, valid_rows in *. simpl.
    destruct (predict_schema_load item) as [data|e] eqn:Hl.
    + destruct (preprocess_input data a) as [X|e] eqn:Hp.
      * rewrite (batch_step_valid _ _ _ _ _ Hl Hp) in Hstep. inversion Hstep; subst st1.
        simpl in *. rewrite Hres, Hidx, Hrows, <- !app_assoc. simpl.
        done.
      * by rewrite (batch_step_uncaught _ _ _ _ _ Hl Hp) in Hstep.
    + destruct (predict_schema_load_raises _ _ Hl) as [err ->].
      rewrite (batch_step_invalid _ _ _ _ Hl) in Hstep. inversion Hstep; subst st1.
      simpl in *. rewrite Hres, Hidx, Hrows, <- !app_assoc. simpl.
      done.
Qed.

Lemma batch_loop_total st i items :
  bundle_complete a → ∃ st', batch_loop a st i items = Ok st'.
Proof.
  intros Hc. revert st i. induction items as [|item items IH]; intros st i; simpl.
  - eauto.
  - destruct (predict_schema_load item) as [data|e] eqn:Hl.
    + destruct (preprocess_input_total data a Hc) as [X Hp].
      rewrite (batch_step_valid _ _ _ _ _ Hl Hp). apply IH.
    + destruct (predict_schema_load_raises _ _ Hl) as [err ->].
      rewrite (batch_step_invalid _ _ _ _ Hl). apply IH.
Qed.

Lemma fill_results_length res ips : length (fill_results res ips) = length res.
Proof.
  revert res. induction ips as [|ip ips IH]; intros res; simpl; [done|].
  unfold fill_results in *. simpl. by rewrite IH, length_insert.
Qed.

Variable f : list value → spec_float.
Hypothesis model_rowwise : ∀ X, model_predict (art_model a) X = f <$> X.

Lemma fill_results_spec pre items :
  (∀ item data, item ∈ items → predict_schema_load item = Ok data →
                ∃ v, preprocess_input data a = Ok [v]) →
  fill_results (pre ++ (loop_entry <$> items))
    (zip (valid_positions (length pre) items) (f <$> vstack (valid_rows a items)))
  = pre ++ (final_entry a <$> items).
Proof.
  revert pre. induction items as [|item items IH]; intros pre Hrow; [done|].
  assert (∀ item data, item ∈ items → predict_schema_load item = Ok data →
                ∃ v, preprocess_input data a = Ok [v]) as Hrow'.
  { intros it d Hit. apply Hrow. by right. }
  unfold loop_entry, final_entry, valid_rows, vstack in *. simpl.
  destruct (predict_schema_load item) as [data|e] eqn:Hl.
  - destruct (Hrow item data) as [v Hv]; [by left|done|].
    rewrite Hv, model_rowwise. simpl.
    unfold fill_results. simpl. fold (fill_results).
    rewrite insert_app_r_alt by lia. rewrite Nat.sub_diag. simpl.
    specialize (IH (pre ++ [BOk (round2 (f v))]) Hrow').
    rewrite length_app in IH. simpl in IH. rewrite Nat.add_1_r in IH.
    rewrite <- !app_assoc in IH. simpl in IH. exact IH.
  - destruct (predict_schema_load_raises _ _ Hl) as [err ->]. simpl.
    specialize (IH (pre ++ [BError err]) Hrow').
    rewrite length_app in IH. simpl in IH. rewrite Nat.add_1_r in IH.
    rewrite <- !app_assoc in IH. simpl in IH. exact IH.
Qed.

End BatchProofs.


(** ** binary64 arithmetic of the split index *)

Lemma one_minus_test_ratio :
  SFsub 53 1024 (float_of_Z 1) test_ratio_default = S754_finite false 7205759403792794 (-53).
Proof. vm_compute. reflexivity. Qed.

Lemma digits2_pos_bounds (p : positive) :
  2 ^ (Z.pos (digits2_pos p) - 1) ≤ Z.pos p < 2 ^ Z.pos (digits2_pos p).
Proof.
  induction p as [p IH|p IH|]; simpl digits2_pos.
  - rewrite Pos2Z.inj_succ, Z.pow_succ_r by lia.
    replace (Z.succ (Z.pos (digits2_pos p)) - 1) with (Z.succ (Z.pos (digits2_pos p) - 1)) by lia.
    rewrite Z.pow_succ_r by lia. lia.
  - rewrite Pos2Z.inj_succ, Z.pow_succ_r by lia.
    replace (Z.succ (Z.pos (digits2_pos p)) - 1) with (Z.succ (Z.pos (digits2_pos p) - 1)) by lia.
    rewrite Z.pow_succ_r by lia. lia.
  - simpl. lia.
Qed.

Lemma digits2_pos_unique (p : positive) (d : Z) :
  2 ^ (d - 1) ≤ Z.pos p < 2 ^ d → Z.pos (digits2_pos p) = d.
Proof.
  intros [Hlo Hhi]. pose proof (digits2_pos_bounds p) as [Hlo' Hhi'].
  assert (0 < d).
  { destruct (Z_lt_le_dec 0 d); [done|]. exfalso.
    destruct (Z.eq_dec d 0) as [->|Hne]; [simpl in Hhi; lia|].
    rewrite Z.pow_neg_r in Hhi by lia. lia. }
  assert (d - 1 < Z.pos (digits2_pos p)).
  { apply (Z.pow_lt_mono_r_iff 2); lia. }
  assert (Z.pos (digits2_pos p) - 1 < d).
  { apply (Z.pow_lt_mono_r_iff 2); lia. }
  lia.
Qed.

Lemma iter_pos_nat {A} (f : A → A) (p : positive) (x : A) :
  SpecFloat.iter_pos f p x = Nat.iter (Pos.to_nat p) f x.
Proof.
  revert x. induction p as [p IH|p IH|]; intros x.
  - change (SpecFloat.iter_pos f p~1 x)
      with (SpecFloat.iter_pos f p (SpecFloat.iter_pos f p (f x))).
    rewrite !IH, Pos2Nat.inj_xI.
    replace (S (2 * Pos.to_nat p)) with (Pos.to_nat p + Pos.to_nat p + 1)%nat by lia.
    by rewrite !Nat.iter_add.
  - change (SpecFloat.iter_pos f p~0 x)
      with (SpecFloat.iter_pos f p (SpecFloat.iter_pos f p x)).
    rewrite !IH, Pos2Nat.inj_xO.
    replace (2 * Pos.to_nat p)%nat with (Pos.to_nat p + Pos.to_nat p)%nat by lia.
    by rewrite !Nat.iter_add.
  - done.
Qed.

Lemma shr_1_m (mrs : shr_record) :
  0 ≤ shr_m mrs → shr_m (shr_1 mrs) = shr_m mrs / 2.
Proof.
  destruct mrs as [m r s]. cbn [shr_m]. intros Hm.
  destruct m as [|[p|p|]|p]; unfold shr_1; cbn [shr_m]; try first [lia | done].
  - rewrite Pos2Z.inj_xI. apply (Z.div_unique _ _ _ 1); lia.
  - rewrite Pos2Z.inj_xO. apply (Z.div_unique _ _ _ 0); lia.
Qed.

Lemma shr_iter_m (n : nat) (mrs : shr_record) :
  0 ≤ shr_m mrs →
  shr_m (Nat.iter n shr_1 mrs) = shr_m mrs / 2 ^ Z.of_nat n.
Proof.
  intros Hm. induction n as [|n IH].
  - simpl. by rewrite Z.div_1_r.
  - rewrite Nat2Z.inj_succ, Z.pow_succ_r by lia. simpl.
    rewrite shr_1_m, IH.
    + rewrite Z.div_div by lia. f_equal. lia.
    + rewrite IH. apply Z.div_pos; lia.
Qed.

Lemma shr_fexp_shift (M : positive) (E k : Z) :
  0 < k → Z.pos (digits2_pos M) = 53 + k → -1074 ≤ E + k →
  ∃ mrs, shr_fexp 53 1024 (Z.pos M) E loc_Exact = (mrs, E + k) ∧
         shr_m mrs = Z.pos M / 2 ^ k.
Proof.
  intros Hk HD He. unfold shr_fexp, fexp, emin, Zdigits2. rewrite HD.
  replace (Z.max (53 + k + E - 53) (3 - 1024 - 53) - E) with k by lia.
  destruct k as [|kp|kp]; try lia. unfold shr.
  eexists. split; [reflexivity|].
  rewrite iter_pos_nat, shr_iter_m; cbn [shr_record_of_loc shr_m]; [|lia].
  by rewrite positive_nat_Z.
Qed.

Lemma shr_fexp_keep (q : positive) (E : Z) :
  Z.pos (digits2_pos q) = 53 → -1074 ≤ E →
  shr_fexp 53 1024 (Z.pos q) E loc_Exact = (Build_shr_record (Z.pos q) false false, E).
Proof.
  intros HD He. unfold shr_fexp, fexp, emin, Zdigits2. rewrite HD.
  replace (Z.max (53 + E - 53) (3 - 1024 - 53) - E) with 0 by lia. done.
Qed.

Lemma round_nearest_even_bounds (mrs : shr_record) :
  shr_m mrs ≤ round_nearest_even (shr_m mrs) (loc_of_shr_record mrs) ≤ shr_m mrs + 1.
Proof.
  destruct mrs as [m [] []]; cbn [shr_m loc_of_shr_record round_nearest_even];
    try destruct (Z.even m); lia.
Qed.

Lemma binary_round_aux_finite (M : positive) (E k : Z) :
  0 < k → Z.pos (digits2_pos M) = 53 + k → -1074 ≤ E + k → E + k ≤ 970 →
  ∃ m' e' q',
    binary_round_aux 53 1024 false (Z.pos M) E loc_Exact = S754_finite false m' e' ∧
    Z.pos M / 2 ^ k ≤ q' ≤ Z.pos M / 2 ^ k + 1 ∧
    ((e' = E + k ∧ Z.pos m' = q') ∨ (e' = E + k + 1 ∧ 2 * Z.pos m' = q')).
Proof.
  intros Hk HD Hlo Hhi.
  destruct (shr_fexp_shift M E k Hk HD Hlo) as (mrs & Hshr & Hm).
  pose proof (round_nearest_even_bounds mrs) as Hq.
  pose proof (digits2_pos_bounds M) as [HMlo HMhi]. rewrite HD in HMlo, HMhi.
  replace (53 + k - 1) with (52 + k) in HMlo by lia.
  rewrite Z.pow_add_r in HMlo, HMhi by lia.
  assert (0 < 2 ^ k) as Hpow by (apply Z.pow_pos_nonneg; lia).
  assert (2 ^ 52 ≤ Z.pos M / 2 ^ k) as Hqlo by (apply Z.div_le_lower_bound; lia).
  assert (Z.pos M / 2 ^ k < 2 ^ 53) as Hqhi by (apply Z.div_lt_upper_bound; lia).
  unfold binary_round_aux. rewrite Hshr.
  set (q' := round_nearest_even (shr_m mrs) (loc_of_shr_record mrs)) in *.
  rewrite Hm in Hq.
  destruct q' as [|qp|qp] eqn:Hq'; try lia.
  destruct (Z_lt_le_dec (Z.pos qp) (2 ^ 53)) as [Hlt|Hge].
  - assert (Z.pos (digits2_pos qp) = 53) as HDq.
    { apply digits2_pos_unique. lia. }
    rewrite (shr_fexp_keep qp (E + k) HDq Hlo). cbn [shr_m].
    assert ((E + k <=? 1024 - 53) = true) as -> by (apply Z.leb_le; lia).
    exists qp, (E + k), (Z.pos qp). split; [done|]. split; [lia|]. by left.
  - assert (Z.pos qp = 2 ^ 53) as Hqp by lia.
    assert (qp = 9007199254740992%positive) as -> by (apply Pos2Z.inj; exact Hqp).
    assert (shr_fexp 53 1024 9007199254740992 (E + k) loc_Exact =
            (Build_shr_record 4503599627370496 false false, E + k + 1)) as ->.
    { unfold shr_fexp, fexp, emin. change (Zdigits2 9007199254740992) with 54.
      replace (Z.max (54 + (E + k) - 53) (3 - 1024 - 53) - (E + k)) with 1 by lia.
      reflexivity. }
    cbn [shr_m].
    assert ((E + k + 1 <=? 1024 - 53) = true) as -> by (apply Z.leb_le; lia).
    exists 4503599627370496%positive, (E + k + 1), (2 ^ 53).
    split; [done|]. split; [lia|]. by right.
Qed.

Lemma pos_iter_xO (p s : positive) : Z.pos (Pos.iter xO p s) = Z.pos p * 2 ^ Z.pos s.
Proof.
  induction s as [|s IH] using Pos.peano_ind.
  - simpl Pos.iter. rewrite Pos2Z.inj_xO. change (2 ^ 1) with 2. lia.
  - rewrite Pos.iter_succ, Pos2Z.inj_xO, IH, Pos2Z.inj_succ, Z.pow_succ_r by lia. lia.
Qed.

Lemma binary_round_aux_exact (m : positive) (e : Z) :
  Z.pos (digits2_pos m) = 53 → -1074 ≤ e → e ≤ 971 →
  binary_round_aux 53 1024 false (Z.pos m) e loc_Exact = S754_finite false m e.
Proof.
  intros HD Hlo Hhi. unfold binary_round_aux.
  rewrite (shr_fexp_keep m e HD Hlo).
  cbn [shr_m loc_of_shr_record round_nearest_even].
  rewrite (shr_fexp_keep m e HD Hlo). cbn [shr_m].
  by assert ((e <=? 1024 - 53) = true) as -> by (apply Z.leb_le; lia).
Qed.

(** [float(n)] of a positive integer of [d < 53] bits is exact: the
    mantissa is [n] shifted to 53 bits. *)
Lemma float_of_Z_small (p : positive) (d : Z) :
  Z.pos (digits2_pos p) = d → d < 53 →
  ∃ m, float_of_Z (Z.pos p) = S754_finite false m (d - 53) ∧
       Z.pos m = Z.pos p * 2 ^ (53 - d) ∧ Z.pos (digits2_pos m) = 53.
Proof.
  intros HD Hd. unfold float_of_Z, binary_normalize, binary_round, shl_align, fexp, emin.
  rewrite HD. assert (0 < d) by lia.
  replace (Z.max (d + 0 - 53) (3 - 1024 - 53) - 0) with (d - 53) by lia.
  replace (Z.max (d + 0 - 53) (3 - 1024 - 53)) with (d - 53) by lia.
  destruct (d - 53) as [|s|s] eqn:Hs; try lia.
  pose proof (pos_iter_xO p s) as Hm.
  replace (Z.pos s) with (53 - d) in Hm by lia.
  assert (Z.pos (digits2_pos (Pos.iter xO p s)) = 53) as HDm.
  { apply digits2_pos_unique. rewrite Hm.
    pose proof (digits2_pos_bounds p) as [Hlo Hhi]. rewrite HD in Hlo, Hhi.
    assert (0 < 2 ^ (53 - d)) by (apply Z.pow_pos_nonneg; lia).
    replace (2 ^ (53 - 1)) with (2 ^ (d - 1) * 2 ^ (53 - d))
      by (rewrite <- Z.pow_add_r by lia; f_equal; lia).
    replace (2 ^ 53) with (2 ^ d * 2 ^ (53 - d))
      by (rewrite <- Z.pow_add_r by lia; f_equal; lia).
    split; [apply Z.mul_le_mono_nonneg_r | apply Z.mul_lt_mono_pos_r]; lia. }
  exists (Pos.iter xO p s). split; [|done].
  apply binary_round_aux_exact; [done|lia|lia].
Qed.

Lemma div_between (a b q : Z) : 0 < b → q * b ≤ a < (q + 1) * b → a / b = q.
Proof. intros Hb [Hlo Hhi]. symmetry. apply (Z.div_unique _ _ _ (a - q * b)); lia. Qed.

(** [int(n * (1 - 0.2))] is [floor(4n/5)] for every length below [2^50]
    (where the product still has three fractional bits to spare). *)
Lemma split_index_default (n : Z) :
  0 ≤ n < 2 ^ 50 → split_index n test_ratio_default = Ok (4 * n / 5).
Proof.
  intros [Hn0 Hn]. unfold split_index. rewrite one_minus_test_ratio.
  destruct n as [|p|p]; [done| |lia].
  set (d := Z.pos (digits2_pos p)).
  pose proof (digits2_pos_bounds p) as [Hplo Hphi]. fold d in Hplo, Hphi.
  assert (0 < d) as Hd0 by (unfold d; lia).
  assert (d ≤ 50) as Hd.
  { assert (d - 1 < 50); [|lia]. apply (Z.pow_lt_mono_r_iff 2); lia. }
  destruct (float_of_Z_small p d eq_refl) as (m & -> & Hm & HDm); [lia|].
  unfold SFmul. cbn [xorb].
  set (M := (m * 7205759403792794)%positive).
  set (A := 2 ^ (53 - d)) in *.
  assert (8 ≤ A) as HA.
  { unfold A. change 8 with (2 ^ 3). apply Z.pow_le_mono_r; lia. }
  assert (Z.pos M = Z.pos p * A * 7205759403792794) as HM.
  { unfold M. rewrite Pos2Z.inj_mul, Hm. done. }
  pose proof (digits2_pos_bounds m) as [Hmlo Hmhi]. rewrite HDm in Hmlo, Hmhi.
  change (2 ^ (53 - 1)) with 4503599627370496 in Hmlo.
  change (2 ^ 53) with 9007199254740992 in Hmhi.
  set (D := Z.pos (digits2_pos M)).
  pose proof (digits2_pos_bounds M) as [HMlo HMhi]. fold D in HMlo, HMhi.
  assert (2 ^ 104 ≤ Z.pos M < 2 ^ 106) as [HM104 HM106].
  { unfold M. rewrite Pos2Z.inj_mul.
    change (2 ^ 104) with (4503599627370496 * 4503599627370496).
    change (2 ^ 106) with (9007199254740992 * 9007199254740992). nia. }
  assert (104 < D ≤ 106) as [HD1 HD2].
  { split.
    - apply (Z.pow_lt_mono_r_iff 2); [lia|unfold D; lia|lia].
    - assert (D - 1 < 106); [|lia]. apply (Z.pow_lt_mono_r_iff 2); lia. }
  set (k := D - 53).
  destruct (binary_round_aux_finite M (d - 53 + -53) k) as (m' & e' & q' & -> & Hq & He');
    [unfold k; lia | unfold k, D; lia | unfold k; lia | unfold k; lia |].
  set (K := 4 * Z.pos p / 5).
  set (B := 2 ^ k) in *.
  set (W := 2 ^ (106 - d - k)).
  assert (0 < B) as HB by (apply Z.pow_pos_nonneg; unfold k; lia).
  assert (0 < W) as HW by (apply Z.pow_pos_nonneg; unfold k; lia).
  assert (B * W = A * 2 ^ 53) as HBW.
  { unfold B, W, A. rewrite <- !Z.pow_add_r by (unfold k; lia). f_equal. lia. }
  assert (B ≤ A * 2 ^ 50) as HBA.
  { assert (B ≤ 2 ^ 53) by (apply Z.pow_le_mono_r; unfold k; lia).
    change (2 ^ 53) with (8 * 2 ^ 50) in *. nia. }
  assert (5 * K ≤ 4 * Z.pos p < 5 * K + 5) as [HK1 HK2].
  { unfold K. pose proof (Z.div_mod (4 * Z.pos p) 5).
    pose proof (Z.mod_pos_bound (4 * Z.pos p) 5). lia. }
  assert (0 ≤ K) as HK0 by (apply Z.div_pos; lia).
  change (2 ^ 50) with 1125899906842624 in *.
  change (2 ^ 53) with 9007199254740992 in *.
  assert (K * W ≤ Z.pos M / B) as Hlow.
  { apply Z.div_le_lower_bound; [done|].
    replace (B * (K * W)) with (A * (9007199254740992 * K)) by lia.
    rewrite HM.
    replace (Z.pos p * A * 7205759403792794) with (A * (Z.pos p * 7205759403792794)) by lia.
    apply Z.mul_le_mono_nonneg_l; lia. }
  assert (Z.pos M / B + 1 < (K + 1) * W) as Hupp.
  { apply (Z.mul_lt_mono_pos_l B); [done|].
    pose proof (Z.mul_div_le (Z.pos M) B HB).
    replace (B * ((K + 1) * W)) with (A * (9007199254740992 * (K + 1))) by lia.
    assert (Z.pos M + A * 1125899906842624 < A * (9007199254740992 * (K + 1))); [|lia].
    rewrite HM.
    replace (Z.pos p * A * 7205759403792794 + A * 1125899906842624)
      with (A * (Z.pos p * 7205759403792794 + 1125899906842624)) by lia.
    apply Z.mul_lt_mono_pos_l; lia. }
  unfold int_of_float. f_equal.
  destruct He' as [[-> Hm']|[-> Hm']].
  - assert ((0 <=? d - 53 + -53 + k) = false) as -> by (apply Z.leb_gt; unfold k; lia).
    replace (- (d - 53 + -53 + k)) with (106 - d - k) by lia. fold W.
    apply div_between; [done|]. lia.
  - assert ((0 <=? d - 53 + -53 + k + 1) = false) as -> by (apply Z.leb_gt; unfold k; lia).
    replace (- (d - 53 + -53 + k + 1)) with (106 - d - k - 1) by lia.
    assert (W = 2 * 2 ^ (106 - d - k - 1)) as HW2.
    { unfold W. rewrite <- Z.pow_succ_r by (unfold k; lia). f_equal. lia. }
    assert (0 < 2 ^ (106 - d - k - 1)) by (apply Z.pow_pos_nonneg; unfold k; lia).
    apply div_between; [done|]. nia.
Qed.

(** ** The order of floats and [idxmin] *)

Lemma float_lt_rank (x y : spec_float) :
  is_nan x = false → is_nan y = false →
  float_lt x y = true ↔ rank_lt (float_rank x) (float_rank y).
Proof.
  unfold float_lt, SFltb, rank_lt.
  destruct x as [[]|[]| |[] mx ex], y as [[]|[]| |[] my ey]; try discriminate;
    intros _ _; cbn [SFcompare float_rank fst snd];
    try (split; [discriminate | lia]); try (split; [lia | done]).
  - rewrite Pos.compare_cont_spec.
    destruct (Z.compare_spec ex ey), (Pos.compare_spec mx my); simpl;
      split; try discriminate; try lia; try done.
  - rewrite Pos.compare_cont_spec.
    destruct (Z.compare_spec ex ey), (Pos.compare_spec mx my); simpl;
      split; try discriminate; try lia; try done.
Qed.

Lemma float_lt_irrefl x : float_lt x x = false.
Proof.
  destruct (is_nan x) eqn:Hx.
  - by destruct x.
  - apply not_true_is_false. rewrite float_lt_rank by done. unfold rank_lt. lia.
Qed.

Lemma float_lt_trans x y z :
  float_lt x y = true → float_lt y z = true → float_lt x z = true.
Proof.
  intros Hxy Hyz.
  assert (is_nan x = false ∧ is_nan y = false ∧ is_nan z = false) as (Hx & Hy & Hz).
  { destruct x, y, z; try done; by destruct s. }
  rewrite float_lt_rank in * by done. unfold rank_lt in *. lia.
Qed.

(** Floats that are no NaN are totally ordered: what is below [b], is below
    whatever is not below [b]. *)
Lemma float_lt_le_trans x b y :
  is_nan y = false → is_nan b = false →
  float_lt x b = true → float_lt y b = false → float_lt x y = true.
Proof.
  intros Hy Hb Hxb Hyb.
  assert (is_nan x = false) as Hx by (by destruct x).
  apply not_true_iff_false in Hyb.
  rewrite float_lt_rank in * by done. unfold rank_lt in *. lia.
Qed.

Lemma float_lt_nan_l x : float_lt S754_nan x = false.
Proof. by destruct x. Qed.

Lemma float_lt_no_nan x y : float_lt x y = true → is_nan x = false ∧ is_nan y = false.
Proof. destruct x as [[]|[]| |[] mx ex], y as [[]|[]| |[] my ey]; by try discriminate. Qed.

(** The scan of [np.argmin] from a least value that is no NaN: it ends on
    the first of the least values that are no NaN. *)
Lemma argmin_from_skipna (pre l : list spec_float) (best_i : nat) (best : spec_float) :
  is_nan best = false → pre !! best_i = Some best →
  (∀ (j : nat) x, pre !! j = Some x → float_lt x best = false) →
  (∀ (j : nat) x, (j < best_i)%nat → pre !! j = Some x → is_nan x = false →
                  float_lt best x = true) →
  ∃ m, (pre ++ l) !! argmin_from best_i best (length pre) l = Some m ∧
    is_nan m = false ∧
    (∀ (j : nat) x, (pre ++ l) !! j = Some x → float_lt x m = false) ∧
    (∀ (j : nat) x, (j < argmin_from best_i best (length pre) l)%nat →
                    (pre ++ l) !! j = Some x → is_nan x = false → float_lt m x = true).
Proof.
  revert pre best_i best.
  induction l as [|x l IH]; intros pre best_i best Hb Hbest Hmin Hfirst.
  - simpl. rewrite app_nil_r. eauto.
  - assert (length (pre ++ [x]) = S (length pre)) as Hlen
      by (rewrite length_app; simpl; lia).
    replace (pre ++ x :: l) with ((pre ++ [x]) ++ l) in * by (by rewrite <- app_assoc).
    simpl. rewrite <- Hlen.
    destruct (float_lt x best) eqn:Hlt.
    + destruct (float_lt_no_nan _ _ Hlt) as [Hx _].
      apply IH; [done| | |].
      * rewrite lookup_app_r by lia. by rewrite Nat.sub_diag.
      * intros j y Hj. apply lookup_app_Some in Hj as [Hj|[_ Hj]].
        -- apply not_true_is_false. intros Hyx.
           pose proof (float_lt_trans _ _ _ Hyx Hlt) as Hyb.
           rewrite (Hmin _ _ Hj) in Hyb. done.
        -- apply list_lookup_singleton_Some in Hj as [_ <-]. apply float_lt_irrefl.
      * intros j y Hjlt Hj Hy. rewrite lookup_app_l in Hj by lia.
        apply (float_lt_le_trans x best y Hy Hb Hlt). by eapply Hmin.
    + apply IH; [done| | |].
      * by apply lookup_app_l_Some.
      * intros j y Hj. apply lookup_app_Some in Hj as [Hj|[_ Hj]]; [by eapply Hmin|].
        by apply list_lookup_singleton_Some in Hj as [_ <-].
      * intros j y Hjlt Hj Hy. apply lookup_lt_Some in Hbest.
        rewrite lookup_app_l in Hj by lia. by eapply Hfirst.
Qed.

Lemma first_valid_Some (i : nat) col k x l :
  first_valid i col = Some (k, x, l) →
  ∃ pre, col = pre ++ x :: l ∧ Forall (λ y, is_nan y = true) pre ∧
         k = (i + length pre)%nat ∧ is_nan x = false.
Proof.
  revert i. induction col as [|y col IH]; intros i; simpl; [done|].
  destruct (is_nan y) eqn:Hy.
  - intros Hf. destruct (IH _ Hf) as (pre & -> & Hpre & -> & Hx).
    exists (y :: pre). split; [done|]. split; [by constructor|]. split; [simpl; lia|done].
  - intros [= <- <- <-]. exists []. split; [done|]. split; [constructor|].
    split; [simpl; lia|done].
Qed.

Lemma first_valid_None (i : nat) col :
  first_valid i col = None ↔ Forall (λ y, is_nan y = true) col.
Proof.
  revert i. induction col as [|y col IH]; intros i; simpl.
  - split; [constructor|done].
  - destruct (is_nan y) eqn:Hy.
    + rewrite IH. split; [by constructor|]. by intros [_ ?]%Forall_cons.
    + split; [done|]. intros [Hn _]%Forall_cons. congruence.
Qed.

(** [idxmin] on a column with a value that is no NaN. *)
Lemma idxmin_skipna (col : list spec_float) x0 :
  x0 ∈ col → is_nan x0 = false →
  ∃ (i : nat) m, idxmin col = Ok i ∧ col !! i = Some m ∧ is_nan m = false ∧
    (∀ (j : nat) x, col !! j = Some x → float_lt x m = false) ∧
    (∀ (j : nat) x, (j < i)%nat → col !! j = Some x → is_nan x = false →
                    float_lt m x = true).
Proof.
  intros Hin Hx0. unfold idxmin.
  destruct (first_valid 0 col) as [[[k x] l]|] eqn:Hf.
  2:{ apply first_valid_None in Hf. rewrite Forall_forall in Hf.
      rewrite (Hf x0 Hin) in Hx0. done. }
  destruct (first_valid_Some _ _ _ _ _ Hf) as (pre & -> & Hpre & -> & Hx).
  simpl. rewrite Forall_lookup in Hpre.
  destruct (argmin_from_skipna (pre ++ [x]) l (length pre) x) as (m & Hm & Hmn & Hmin & Hfirst).
  - done.
  - rewrite lookup_app_r by lia. by rewrite Nat.sub_diag.
  - intros j y Hj. apply lookup_app_Some in Hj as [Hj|[_ Hj]].
    + specialize (Hpre j y Hj). destruct y; first [done | apply float_lt_nan_l].
    + apply list_lookup_singleton_Some in Hj as [_ <-]. apply float_lt_irrefl.
  - intros j y Hjlt Hj Hy. rewrite lookup_app_l in Hj by lia.
    rewrite (Hpre j y Hj) in Hy. done.
  - rewrite length_app in Hm, Hfirst. simpl in Hm, Hfirst.
    rewrite Nat.add_1_r in Hm, Hfirst.
    rewrite <- app_assoc in Hm, Hmin, Hfirst. simpl in Hm, Hmin, Hfirst.
    exists (argmin_from (length pre) x (S (length pre)) l), m. eauto.
Qed.

Lemma idxmin_spec (col : list spec_float) :
  no_nan col → col ≠ [] →
  ∃ (i : nat) m, idxmin col = Ok i ∧ col !! i = Some m ∧
    (∀ (j : nat) x, col !! j = Some x → float_lt x m = false) ∧
    (∀ (j : nat) x, (j < i)%nat → col !! j = Some x → float_lt m x = true).
Proof.
  intros Hnan Hne. unfold no_nan in Hnan. rewrite Forall_lookup in Hnan.
  destruct col as [|x0 l]; [done|].
  destruct (idxmin_skipna (x0 :: l) x0) as (i & m & Hidx & Hm & _ & Hmin & Hfirst);
    [by left|by apply (Hnan 0%nat)|].
  exists i, m. split; [done|]. split; [done|]. split; [done|].
  intros j x Hj Hx. apply (Hfirst j x Hj Hx). by apply (Hnan j).
Qed.

Lemma column_RMSE_Ok (results_df : list metrics_row) :
  results_df ≠ [] → column_RMSE results_df = Ok (RMSE <$> results_df).
Proof. by destruct results_df. Qed.

(** [pick_best] returns the model of the first row whose RMSE no row
    undercuts. *)
Lemma pick_best_spec (results_df : list metrics_row) :
  no_nan_rmse results_df → results_df ≠ [] →
  ∃ (i : nat) best, results_df !! i = Some best ∧
    pick_best results_df = Ok (model best) ∧
    (∀ (j : nat) r, results_df !! j = Some r → float_lt (RMSE r) (RMSE best) = false) ∧
    (∀ (j : nat) r, (j < i)%nat → results_df !! j = Some r →
                    float_lt (RMSE best) (RMSE r) = true).
Proof.
  intros Hnan Hne.
  destruct (idxmin_spec (RMSE <$> results_df) Hnan) as (i & m & Hidx & Hm & Hmin & Hfirst).
  { by destruct results_df. }
  rewrite list_lookup_fmap in Hm.
  destruct (results_df !! i) as [best|] eqn:Hbest; [|done].
  inversion Hm; subst m.
  exists i, best. split; [done|]. split.
  - unfold pick_best. rewrite (column_RMSE_Ok _ Hne).
    change (mbind ?f (Ok ?x)) with (f x). cbv beta.
    rewrite Hidx. change (mbind ?f (Ok ?x)) with (f x). cbv beta.
    unfold loc. by rewrite Hbest.
  - split.
    + intros j r Hr. apply (Hmin j). by rewrite list_lookup_fmap, Hr.
    + intros j r Hj Hr. apply (Hfirst j); [done|]. by rewrite list_lookup_fmap, Hr.
Qed.

Lemma pick_best_first_min (results_df : list metrics_row) (i : nat) ri :
  no_nan_rmse results_df → results_df !! i = Some ri →
  (∀ (j : nat) r, results_df !! j = Some r → float_lt (RMSE r) (RMSE ri) = false) →
  (∀ (j : nat) r, (j < i)%nat → results_df !! j = Some r →
                  float_lt (RMSE ri) (RMSE r) = true) →
  pick_best results_df = Ok (model ri).
Proof.
  intros Hnan Hi Hmin Hfirst.
  destruct (pick_best_spec results_df Hnan) as (k & best & Hk & Hpick & Hkmin & Hkfirst).
  { intros ->. by rewrite lookup_nil in Hi. }
  rewrite Hpick. destruct (Nat.lt_trichotomy i k) as [Hlt|[->|Hgt]].
  - pose proof (Hkfirst i ri Hlt Hi) as H1. rewrite (Hmin k best Hk) in H1. done.
  - rewrite Hk in Hi. by inversion Hi.
  - pose proof (Hfirst k best Hgt Hk) as H1. rewrite (Hkmin i ri Hi) in H1. done.
Qed.

Lemma pick_best_ignores_MAE_R2 (t t' : list metrics_row) :
  model <$> t = model <$> t' → RMSE <$> t = RMSE <$> t' →
  pick_best t = pick_best t'.
Proof.
  intros Hmodel Hrmse. unfold pick_best.
  assert (column_RMSE t = column_RMSE t') as ->.
  { destruct t, t'; try done. unfold column_RMSE. by f_equal. }
  destruct (column_RMSE t') as [col|e]; [|done].
  change (mbind ?f (Ok ?x)) with (f x). cbv beta.
  destruct (idxmin col) as [i|e]; [|done].
  change (mbind ?f (Ok ?x)) with (f x). cbv beta. unfold loc.
  assert (model <$> (t !! i) = model <$> (t' !! i)) as Hi
    by (by rewrite <- !list_lookup_fmap, Hmodel).
  destruct (t !! i), (t' !! i); simpl in Hi; try done. inversion Hi.
  change (mbind ?f (Ok ?x)) with (f x). cbv beta. by f_equal.
Qed.

(** * Theorems *)

(** ** The feature transform *)

Lemma select_columns_ext (row row' : gmap string value) (fn : list string) :
  (∀ n, n ∈ fn → row' !! n = row !! n) →
  select_columns row' fn = select_columns row fn.
Proof.
  intros Hext. unfold select_columns.
  assert (filter (λ n, row' !! n = None) fn = filter (λ n, row !! n = None) fn) as ->.
  { induction fn as [|n fn IH]; [done|].
    rewrite !filter_cons, (Hext n) by (by left).
    rewrite IH; [done|]. intros m Hm. apply Hext. by right. }
  assert (omap (λ n, row' !! n) fn = omap (λ n, row !! n) fn) as ->; [|done].
  induction fn as [|n fn IH]; [done|]. csimpl.
  rewrite (Hext n) by (by left).
  rewrite IH; [done|]. intros m Hm. apply Hext. by right.
Qed.

Lemma encode_columns_Ok_present le_map data cks row row' :
  encode_columns le_map data cks row = Ok row' →
  Forall (λ col, is_Some (le_map !! col)) cks.*1.
Proof.
  revert row. induction cks as [|[col key] cks IH]; intros row Hrun; simpl in *.
  - constructor.
  - destruct (le_map !! col) as [le|] eqn:Hle.
    + rewrite (encode_column_Some _ _ _ _ _ _ Hle) in Hrun.
      constructor; [by rewrite Hle | by eapply IH].
    + by rewrite (encode_column_None _ _ _ _ _ Hle) in Hrun.
Qed.

Lemma encode_columns_code le_map data cks row row' col key le :
  NoDup cks.*1 → (col, key) ∈ cks → le_map !! col = Some le →
  encode_columns le_map data cks row = Ok row' →
  row' !! col = Some (VInt (code_of le (key data))).
Proof.
  revert row. induction cks as [|[c k] cks IH]; intros row Hnd Hin Hle Hrun.
  - by apply elem_of_nil in Hin.
  - simpl in Hnd. apply NoDup_cons in Hnd as [Hc Hnd]. simpl in Hrun.
    apply elem_of_cons in Hin as [Heq|Hin].
    + inversion Heq; subst c k.
      rewrite (encode_column_Some _ _ _ _ _ _ Hle) in Hrun.
      change (encode_columns le_map data cks
                (<[col:=VInt (code_of le (key data))]> row) = Ok row') in Hrun.
      rewrite (encode_columns_lookup_ne _ _ _ _ _ _ Hrun Hc).
      by rewrite lookup_insert_eq.
    + destruct (encode_column le_map data row (c, k)) as [r1|e] eqn:Hstep; [|done].
      by eapply IH.
Qed.

Lemma index_of_None s l : index_of s l = None ↔ s ∉ l.
Proof.
  induction l as [|c l IH]; simpl.
  - split; [intros _; apply not_elem_of_nil | done].
  - destruct (decide (c = s)) as [->|Hne].
    + split; [done|]. intros Hn. destruct Hn. by left.
    + rewrite not_elem_of_cons, <- IH.
      destruct (index_of s l); simpl; split; try done; naive_solver.
Qed.

Lemma index_of_nonneg s l i : index_of s l = Some i → 0 ≤ i.
Proof.
  revert i. induction l as [|c l IH]; intros i; simpl; [done|].
  destruct (decide (c = s)).
  - intros [= <-]. lia.
  - destruct (index_of s l) as [j|]; simpl; [|done].
    intros [= <-]. specialize (IH j eq_refl). lia.
Qed.

Lemma col_key_map_NoDup : NoDup col_key_map.*1.
Proof. simpl. repeat constructor; set_solver. Qed.

Lemma assemble_row_calendar {Model Scaler} data (a : artifacts Model Scaler) row n :
  assemble_row data a = Ok row → n ∉ col_key_map.*1 → row !! n = base_row data !! n.
Proof. intros Hrow Hn. by eapply encode_columns_lookup_ne. Qed.

(** C1: for a record that passes validation and any bundle, the matrix
    [preprocess_input] returns is one row with one cell per name of
    [feature_names], the cell at position [i] being the assembled field named
    by the [i]-th feature name; fields that [feature_names] does not name have
    no influence on it; and it is the same for every ordering of the keys
    of the input object. *)
Theorem feature_order_canonical `{Fields} {Model Scaler} (a : artifacts Model Scaler)
    (o : list (string * json)) (data : Data) (X : ndarray) :
  predict_schema_load (JObj o) = Ok data →
  preprocess_input data a = Ok X →
  ∃ row v, assemble_row data a = Ok row ∧ X = [v] ∧
    length v = length (art_feature_names a) ∧
    (∀ (i : nat) name, art_feature_names a !! i = Some name →
       is_Some (row !! name) ∧ v !! i = row !! name) ∧
    (∀ row' : gmap string value,
       (∀ name, name ∈ art_feature_names a → row' !! name = row !! name) →
       select_columns row' (art_feature_names a) = Ok X) ∧
    (∀ o', NoDup o.*1 → o ≡ₚ o' →
       ∃ data', predict_schema_load (JObj o') = Ok data' ∧
                preprocess_input data' a = Ok X).
Proof.
  intros Hload Hpre.
  destruct (preprocess_input_Ok data a X Hpre) as (row & v & Hrow & -> & Hlen & Hcols).
  exists row, v. split; [done|]. split; [done|]. split; [done|].
  split; [exact Hcols|]. split.
  - intros row' Hext. rewrite (select_columns_ext row row' _ Hext).
    unfold preprocess_input in Hpre. by rewrite Hrow in Hpre.
  - intros o' Hnd Hperm. exists data. split; [|done].
    by apply (predict_schema_load_Permutation o o').
Qed.

Lemma feature_order_canonical_witness :
  @predict_schema_load Examples.strict_fields (JObj Examples.request)
    = Ok Examples.request_data ∧
  preprocess_input Examples.request_data Examples.bundle
    = Ok [[VInt 0; VInt 1; VInt 120; VInt 30; VInt 50; VFloat (float_of_Z 20);
           VFloat (float_of_Z 10); VInt 3; VInt 1; VFloat (float_of_Z 19);
           VInt 1; VInt 0; VInt 2024; VInt 3; VInt 15; VInt 11; VInt 4; VInt 1]] ∧
  ∃ row v, assemble_row Examples.request_data Examples.bundle = Ok row ∧
    [[VInt 0; VInt 1; VInt 120; VInt 30; VInt 50; VFloat (float_of_Z 20);
      VFloat (float_of_Z 10); VInt 3; VInt 1; VFloat (float_of_Z 19);
      VInt 1; VInt 0; VInt 2024; VInt 3; VInt 15; VInt 11; VInt 4; VInt 1]] = [v] ∧
    length v = length (art_feature_names Examples.bundle) ∧
    (∀ (i : nat) name, art_feature_names Examples.bundle !! i = Some name →
       is_Some (row !! name) ∧ v !! i = row !! name) ∧
    (∀ row' : gmap string value,
       (∀ name, name ∈ art_feature_names Examples.bundle → row' !! name = row !! name) →
       select_columns row' (art_feature_names Examples.bundle)
       = Ok [[VInt 0; VInt 1; VInt 120; VInt 30; VInt 50; VFloat (float_of_Z 20);
              VFloat (float_of_Z 10); VInt 3; VInt 1; VFloat (float_of_Z 19);
              VInt 1; VInt 0; VInt 2024; VInt 3; VInt 15; VInt 11; VInt 4; VInt 1]]) ∧
    (∀ o', NoDup Examples.request.*1 → Examples.request ≡ₚ o' →
       ∃ data', @predict_schema_load Examples.strict_fields (JObj o') = Ok data' ∧
                preprocess_input data' Examples.bundle
                = Ok [[VInt 0; VInt 1; VInt 120; VInt 30; VInt 50; VFloat (float_of_Z 20);
                       VFloat (float_of_Z 10); VInt 3; VInt 1; VFloat (float_of_Z 19);
                       VInt 1; VInt 0; VInt 2024; VInt 3; VInt 15; VInt 11; VInt 4;
                       VInt 1]]).
Proof.
  split; [vm_compute; reflexivity|]. split; [vm_compute; reflexivity|].
  apply (@feature_order_canonical Examples.strict_fields nat unit Examples.bundle
           Examples.request Examples.request_data); vm_compute; reflexivity.
Defined.

Lemma example_bundle_complete : bundle_complete Examples.bundle.
Proof.
  split; [unfold encoders_present|]; apply Forall_forall; intros n Hn;
    repeat (apply elem_of_cons in Hn as [->|Hn]; [vm_compute; eauto; set_solver|]);
    by apply elem_of_nil in Hn.
Qed.

(** C3: when the value of a categorical field is not among the classes of
    the encoder fitted for its column, [transform] raises [ValueError] and
    [preprocess_input], on a bundle that has its four encoders and whose
    feature names are row keys, still returns: the column holds the code 0,
    below which no encoder index lies, and the vector has the length and the
    order of [feature_names]. *)
Theorem unseen_category_fallback {Model Scaler} (a : artifacts Model Scaler)
    (data : Data) (col : string) (key : Data → string) (le : LabelEncoder) :
  bundle_complete a →
  (col, key) ∈ col_key_map →
  art_le_map a !! col = Some le →
  key data ∉ classes_ le →
  transform le [key data] = Raise ValueError ∧
  (∀ s i, index_of s (classes_ le) = Some i → 0 ≤ i) ∧
  ∃ row v, assemble_row data a = Ok row ∧ row !! col = Some (VInt 0) ∧
    preprocess_input data a = Ok [v] ∧
    length v = length (art_feature_names a) ∧
    (∀ (i : nat) name, art_feature_names a !! i = Some name → v !! i = row !! name) ∧
    (∀ i : nat, art_feature_names a !! i = Some col → v !! i = Some (VInt 0)).
Proof.
  intros Hc Hin Hle Hunseen.
  apply index_of_None in Hunseen.
  split; [by rewrite transform_singleton, Hunseen|].
  split; [intros s i; apply index_of_nonneg|].
  destruct (preprocess_input_total data a Hc) as [X HX].
  destruct (preprocess_input_Ok data a X HX) as (row & v & Hrow & -> & Hlen & Hcols).
  assert (row !! col = Some (VInt 0)) as Hcol.
  { unfold assemble_row in Hrow.
    rewrite (encode_columns_code _ _ _ _ _ _ _ _ col_key_map_NoDup Hin Hle Hrow).
    unfold code_of. by rewrite Hunseen. }
  exists row, v. split; [done|]. split; [done|]. split; [done|]. split; [done|].
  split.
  - intros i name Hi. by apply Hcols.
  - intros i Hi. destruct (Hcols i col Hi) as [_ ->]. done.
Qed.

Lemma unseen_category_fallback_witness :
  bundle_complete Examples.bundle ∧
  ("Category", category) ∈ col_key_map ∧
  art_le_map Examples.bundle !! "Category"
    = Some (mkLabelEncoder ["Clothing"; "Electronics"; "Furniture"; "Groceries"]) ∧
  (category Examples.request_data
     ∉ ["Clothing"; "Electronics"; "Furniture"; "Groceries"]) ∧
  ∃ row v, assemble_row Examples.request_data Examples.bundle = Ok row ∧
    row !! "Category" = Some (VInt 0) ∧
    preprocess_input Examples.request_data Examples.bundle = Ok [v] ∧
    length v = length (art_feature_names Examples.bundle) ∧
    (∀ (i : nat) name, art_feature_names Examples.bundle !! i = Some name →
                       v !! i = row !! name) ∧
    (∀ i : nat, art_feature_names Examples.bundle !! i = Some "Category" →
                v !! i = Some (VInt 0)).
Proof.
  pose proof example_bundle_complete as Hc.
  assert (("Category", category) ∈ col_key_map) as Hin by (by left).
  assert (category Examples.request_data
          ∉ ["Clothing"; "Electronics"; "Furniture"; "Groceries"]) as Hun
    by (apply index_of_None; reflexivity).
  split; [exact Hc|]. split; [exact Hin|]. split; [reflexivity|]. split; [exact Hun|].
  exact (proj2 (proj2 (unseen_category_fallback Examples.bundle Examples.request_data
                         "Category" category _ Hc Hin eq_refl Hun))).
Defined.

Lemma preprocess_input_complete {Model Scaler} data (a : artifacts Model Scaler) X :
  preprocess_input data a = Ok X → bundle_complete a.
Proof.
  intros HX.
  destruct (preprocess_input_Ok data a X HX) as (row & v & Hrow & -> & Hlen & Hcols).
  split.
  - unfold assemble_row in Hrow. by eapply encode_columns_Ok_present.
  - apply Forall_forall. intros n Hn.
    apply list_elem_of_lookup in Hn as [i Hi].
    destruct (Hcols i n Hi) as [Hsome _].
    apply elem_of_dom in Hsome. rewrite (assemble_row_dom data a row Hrow) in Hsome.
    by apply elem_of_list_to_set in Hsome.
Qed.

(** C10: [preprocess_input] returns a matrix exactly when the encoder map
    has an encoder for each of the four categorical columns and every
    feature name is one of the eighteen keys of the assembled row;
    otherwise it raises a [KeyError], whatever the record, which
    [POST /predict] answers with status 500: a missing encoder raises at
    [le_map[col]], before the [try] that catches the [ValueError] of an unseen
    label, and an unknown feature name raises at the column selection. *)
Theorem preprocess_input_precondition `{Fields} `{Builtins} {Model Scaler}
    `{Regressor Model} (a : artifacts Model Scaler) (data : Data) :
  length row_columns = 18%nat ∧
  ((∃ X, preprocess_input data a = Ok X) ↔ bundle_complete a) ∧
  (¬ bundle_complete a → ∃ missing, preprocess_input data a = Raise (KeyError missing)) ∧
  (¬ encoders_present (art_le_map a) →
     ∃ col, col ∈ col_key_map.*1 ∧ art_le_map a !! col = None ∧
            preprocess_input data a = Raise (KeyError [col])) ∧
  (encoders_present (art_le_map a) →
     ∀ n, n ∈ art_feature_names a → n ∉ row_columns →
       ∃ missing, n ∈ missing ∧ preprocess_input data a = Raise (KeyError missing)) ∧
  (¬ bundle_complete a → ∀ request_id raw, predict_schema_load raw = Ok data →
     ∃ missing, predict a request_id raw = (R500 (KeyError missing), [])).
Proof.
  assert (¬ bundle_complete a →
          ∃ missing, preprocess_input data a = Raise (KeyError missing)) as Hraise.
  { intros Hnc. destruct (preprocess_input data a) as [X|e] eqn:HX.
    - destruct Hnc. by eapply preprocess_input_complete.
    - destruct (preprocess_input_raises _ _ _ HX) as [ms ->]. eauto. }
  split; [done|]. split; [|split; [exact Hraise|split; [|split]]].
  - split; [intros [X HX]; by eapply preprocess_input_complete|].
    apply preprocess_input_total.
  - intros Hne. unfold encoders_present in Hne. rewrite Forall_forall in Hne.
    destruct (encode_columns_missing (art_le_map a) data col_key_map (base_row data) Hne)
      as (col & Hcol & Hnone & Hrun).
    exists col. split; [done|]. split; [done|].
    unfold preprocess_input, assemble_row. by rewrite Hrun.
  - intros Henc n Hn Hnot. unfold encoders_present in Henc. rewrite Forall_forall in Henc.
    destruct (encode_columns_total (art_le_map a) data col_key_map (base_row data) Henc)
      as [row Hrow].
    destruct (select_columns_missing row (art_feature_names a) n Hn) as (ms & Hms & Hsel).
    { apply not_elem_of_dom. rewrite (assemble_row_dom data a row Hrow).
      by rewrite elem_of_list_to_set. }
    exists ms. split; [done|]. unfold preprocess_input, assemble_row. by rewrite Hrow.
  - intros Hnc request_id raw Hload. destruct (Hraise Hnc) as [ms Hms].
    exists ms. unfold predict. rewrite Hload, Hms.
    by destruct (predict_schema_load_JObj _ _ Hload) as [o ->].
Qed.

Lemma preprocess_input_precondition_witness :
  ("Store ID" ∈ art_feature_names Examples.stale_bundle ∧ "Store ID" ∉ row_columns) ∧
  @predict_schema_load Examples.strict_fields (JObj Examples.request)
    = Ok Examples.request_data ∧
  ∃ missing,
    @predict Examples.strict_fields Examples.identity_round nat unit
      Examples.column_regressor Examples.stale_bundle "r-1" (JObj Examples.request)
    = (R500 (KeyError missing), []).
Proof.
  assert ("Store ID" ∈ art_feature_names Examples.stale_bundle ∧ "Store ID" ∉ row_columns)
    as Hstale.
  { split; [by left|]. unfold row_columns. set_solver. }
  split; [exact Hstale|]. split; [vm_compute; reflexivity|].
  refine (proj2 (proj2 (proj2 (proj2 (proj2
    (@preprocess_input_precondition Examples.strict_fields Examples.identity_round
       nat unit Examples.column_regressor Examples.stale_bundle Examples.request_data)))))
    _ "r-1" (JObj Examples.request) _); [|vm_compute; reflexivity].
  intros [_ Hfn]. rewrite Forall_forall in Hfn.
  destruct Hstale as [Hin Hnot]. exact (Hnot (Hfn _ Hin)).
Defined.

(** ** The endpoints *)

Section EndpointProofs.
Context `{Fields} `{Builtins} {Model Scaler : Type} `{Regressor Model}.
Variable a : artifacts Model Scaler.
Variable MAX_BATCH_SIZE : Z.

Lemma predict_valid request_id raw data X :
  predict_schema_load raw = Ok data → preprocess_input data a = Ok X →
  predict a request_id raw =
  match model_predict (art_model a) X with
  | pred :: _ => (R200_predict (round2 pred) request_id, [X])
  | [] => (R500 IndexError, [X])
  end.
Proof.
  intros Hload Hpre. destruct (predict_schema_load_JObj _ _ Hload) as [o ->].
  unfold predict. by rewrite Hload, Hpre.
Qed.

Lemma predict_batch_Ok items st :
  Z.of_nat (length items) ≤ MAX_BATCH_SIZE →
  batch_loop a (mkBatch [] [] []) 0 items = Ok st →
  predict_batch a MAX_BATCH_SIZE (JArr items) =
  match valid_rows a items with
  | [] => (R200_batch (loop_entry <$> items), [])
  | _ =>
      (R200_batch
         (fill_results (loop_entry <$> items)
            (zip (valid_positions 0 items)
                 (model_predict (art_model a) (vstack (valid_rows a items))))),
       [vstack (valid_rows a items)])
  end.
Proof.
  intros Hlen Hloop. unfold predict_batch.
  assert ((MAX_BATCH_SIZE <? Z.of_nat (length items)) = false) as -> by (apply Z.ltb_ge; lia).
  rewrite Hloop. destruct (batch_loop_Ok a _ _ _ _ Hloop) as (Hres & Hidx & Hrows).
  simpl in Hres, Hidx, Hrows. rewrite Hres, Hidx, Hrows.
  by destruct (valid_rows a items).
Qed.

Lemma predict_batch_rejected items :
  MAX_BATCH_SIZE < Z.of_nat (length items) →
  predict_batch a MAX_BATCH_SIZE (JArr items)
  = (R413 (Z.of_nat (length items)) MAX_BATCH_SIZE, []).
Proof.
  intros Hlen. unfold predict_batch.
  by assert ((MAX_BATCH_SIZE <? Z.of_nat (length items)) = true) as -> by (apply Z.ltb_lt; lia).
Qed.

Lemma predict_batch_length items :
  bundle_complete a → Z.of_nat (length items) ≤ MAX_BATCH_SIZE →
  ∃ rs, (predict_batch a MAX_BATCH_SIZE (JArr items)).1 = R200_batch rs ∧
        length rs = length items.
Proof.
  intros Hc Hlen. destruct (batch_loop_total a (mkBatch [] [] []) 0%nat items Hc) as [st Hst].
  rewrite (predict_batch_Ok items st Hlen Hst).
  destruct (valid_rows a items); simpl; eexists; (split; [reflexivity|]).
  - by rewrite length_fmap.
  - by rewrite fill_results_length, length_fmap.
Qed.

Variable f : list value → spec_float.
Hypothesis model_rowwise : ∀ X, model_predict (art_model a) X = f <$> X.

Lemma predict_batch_entries items :
  bundle_complete a → Z.of_nat (length items) ≤ MAX_BATCH_SIZE →
  (predict_batch a MAX_BATCH_SIZE (JArr items)).1 = R200_batch (final_entry a <$> items).
Proof.
  intros Hc Hlen. destruct (batch_loop_total a (mkBatch [] [] []) 0%nat items Hc) as [st Hst].
  rewrite (predict_batch_Ok items st Hlen Hst).
  assert (fill_results (loop_entry <$> items)
            (zip (valid_positions 0 items) (f <$> vstack (valid_rows a items)))
          = final_entry a <$> items) as Hfill.
  { apply (fill_results_spec a f model_rowwise [] items).
    intros item data _ Hload.
    destruct (preprocess_input_total data a Hc) as [X HX].
    destruct (preprocess_input_Ok data a X HX) as (row & v & _ & -> & _). eauto. }
  destruct (valid_rows a items) eqn:Hrows; simpl.
  - f_equal. rewrite <- Hfill. simpl. by rewrite zip_with_nil_r.
  - f_equal. by rewrite model_rowwise.
Qed.

End EndpointProofs.

(** C7: a batch whose length is the configured maximum (256 when the
    environment sets none), or less, is processed into one entry per item;
    a longer batch is answered with status 413 alone, and the model is not
    called. *)
Theorem batch_capacity `{Fields} `{Builtins} {Model Scaler : Type} `{Regressor Model}
    (a : artifacts Model Scaler) (MAX_BATCH_SIZE : Z) (items : list json) :
  max_batch_size None = 256 ∧
  (Z.of_nat (length items) = MAX_BATCH_SIZE →
     (∀ size limit, (predict_batch a MAX_BATCH_SIZE (JArr items)).1 ≠ R413 size limit) ∧
     (bundle_complete a →
        ∃ rs, (predict_batch a MAX_BATCH_SIZE (JArr items)).1 = R200_batch rs ∧
              length rs = length items)) ∧
  (MAX_BATCH_SIZE < Z.of_nat (length items) →
     predict_batch a MAX_BATCH_SIZE (JArr items)
     = (R413 (Z.of_nat (length items)) MAX_BATCH_SIZE, [])).
Proof.
  split; [done|]. split.
  - intros Hlen. split.
    + intros size limit. unfold predict_batch.
      assert ((MAX_BATCH_SIZE <? Z.of_nat (length items)) = false) as ->
        by (apply Z.ltb_ge; lia).
      destruct (batch_loop a _ _ items) as [st|e]; [|done].
      by destruct (rows st).
    + intros Hc. apply predict_batch_length; [done|lia].
  - apply predict_batch_rejected.
Qed.

Lemma batch_capacity_witness :
  (bundle_complete Examples.bundle ∧
   Z.of_nat (length [JObj Examples.request; JObj Examples.bad_request]) = 2 ∧
   ∃ rs, (@predict_batch Examples.strict_fields Examples.identity_round nat unit
            Examples.column_regressor Examples.bundle 2
            (JArr [JObj Examples.request; JObj Examples.bad_request])).1 = R200_batch rs ∧
         length rs = 2%nat) ∧
  (1 < Z.of_nat (length [JObj Examples.request; JObj Examples.bad_request]) ∧
   @predict_batch Examples.strict_fields Examples.identity_round nat unit
     Examples.column_regressor Examples.bundle 1
     (JArr [JObj Examples.request; JObj Examples.bad_request])
   = (R413 2 1, [])).
Proof.
  split.
  - split; [exact example_bundle_complete|]. split; [reflexivity|].
    exact (proj2 (proj1 (proj2 (@batch_capacity Examples.strict_fields
                                  Examples.identity_round nat unit
                                  Examples.column_regressor Examples.bundle 2
                                  [JObj Examples.request; JObj Examples.bad_request]))
                    eq_refl) example_bundle_complete).
  - split; [reflexivity|].
    exact (proj2 (proj2 (@batch_capacity Examples.strict_fields Examples.identity_round
                           nat unit Examples.column_regressor Examples.bundle 1
                           [JObj Examples.request; JObj Examples.bad_request]))
             eq_refl).
Defined.

(** C6: for a batch within the limit, served by a complete bundle and a
    model that forecasts row by row, the response is a list with one entry
    per item, in input order: an item that fails validation has an error
    entry with its messages at its own index, and an item that passes has
    the demand [POST /predict] returns for it. *)
Theorem batch_partial_failure `{Fields} `{Builtins} {Model Scaler : Type}
    `{Regressor Model} (a : artifacts Model Scaler) (MAX_BATCH_SIZE : Z)
    (f : list value → spec_float) (items : list json) (request_id : string) :
  bundle_complete a →
  (∀ X, model_predict (art_model a) X = f <$> X) →
  Z.of_nat (length items) ≤ MAX_BATCH_SIZE →
  ∃ rs, (predict_batch a MAX_BATCH_SIZE (JArr items)).1 = R200_batch rs ∧
    length rs = length items ∧
    ∀ (i : nat) item, items !! i = Some item →
      (∀ err, predict_schema_load item = Raise (ValidationError err) →
              rs !! i = Some (BError err)) ∧
      (∀ data, predict_schema_load item = Ok data →
         ∃ demand, (predict a request_id item).1 = R200_predict demand request_id ∧
                   rs !! i = Some (BOk demand)) ∧
      ((∃ data, predict_schema_load item = Ok data) ∨
       (∃ err, predict_schema_load item = Raise (ValidationError err))).
Proof.
  intros Hc Hrow Hlen. exists (final_entry a <$> items).
  split; [by apply (predict_batch_entries a MAX_BATCH_SIZE f)|].
  split; [by rewrite length_fmap|].
  intros i item Hi. rewrite list_lookup_fmap, Hi. simpl. unfold final_entry.
  split; [|split].
  - intros err Herr. by rewrite Herr.
  - intros data Hload. rewrite Hload.
    destruct (preprocess_input_total data a Hc) as [X HX].
    destruct (preprocess_input_Ok data a X HX) as (row & v & _ & -> & _).
    rewrite (predict_valid a request_id item data [v] Hload HX), HX, Hrow. simpl. eauto.
  - destruct (predict_schema_load item) as [data|e] eqn:Hload; [eauto|].
    destruct (predict_schema_load_raises _ _ Hload) as [err ->]. eauto.
Qed.

Lemma batch_partial_failure_witness :
  bundle_complete Examples.bundle ∧
  (∀ X, @model_predict nat Examples.column_regressor (art_model Examples.bundle) X
        = (λ row, Examples.cell_float (default (VInt 0) (row !! 2%nat))) <$> X) ∧
  Z.of_nat (length [JObj Examples.request; JObj Examples.bad_request; JObj Examples.request])
    ≤ 256 ∧
  ∃ rs,
    (@predict_batch Examples.strict_fields Examples.identity_round nat unit
       Examples.column_regressor Examples.bundle 256
       (JArr [JObj Examples.request; JObj Examples.bad_request; JObj Examples.request])).1
    = R200_batch rs ∧
    length rs = 3%nat ∧
    ∀ (i : nat) item,
      [JObj Examples.request; JObj Examples.bad_request; JObj Examples.request] !! i
        = Some item →
      (∀ err, @predict_schema_load Examples.strict_fields item
              = Raise (ValidationError err) → rs !! i = Some (BError err)) ∧
      (∀ data, @predict_schema_load Examples.strict_fields item = Ok data →
         ∃ demand,
           (@predict Examples.strict_fields Examples.identity_round nat unit
              Examples.column_regressor Examples.bundle "r-1" item).1
           = R200_predict demand "r-1" ∧
           rs !! i = Some (BOk demand)) ∧
      ((∃ data, @predict_schema_load Examples.strict_fields item = Ok data) ∨
       (∃ err, @predict_schema_load Examples.strict_fields item
               = Raise (ValidationError err))).
Proof.
  split; [exact example_bundle_complete|]. split; [reflexivity|].
  split; [vm_compute; discriminate|].
  apply (@batch_partial_failure Examples.strict_fields Examples.identity_round nat unit
           Examples.column_regressor Examples.bundle 256
           (λ row, Examples.cell_float (default (VInt 0) (row !! 2%nat)))
           [JObj Examples.request; JObj Examples.bad_request; JObj Examples.request] "r-1").
  - exact example_bundle_complete.
  - reflexivity.
  - vm_compute. discriminate.
Defined.

Section ScalerUnused.
Context `{Fields} `{Builtins} {Model Scaler : Type} `{Regressor Model}.
Variable a : artifacts Model Scaler.
Variable scaler' : Scaler.

Lemma preprocess_input_scaler data :
  preprocess_input data (with_scaler a scaler') = preprocess_input data a.
Proof. reflexivity. Qed.

Lemma batch_loop_scaler st i items :
  batch_loop (with_scaler a scaler') st i items = batch_loop a st i items.
Proof.
  revert st i. induction items as [|item items IH]; intros st i; [done|].
  simpl.
  assert (batch_step (with_scaler a scaler') st i item = batch_step a st i item) as ->
    by reflexivity.
  destruct (batch_step a st i item); [apply IH|done].
Qed.

Lemma predict_scaler request_id raw :
  predict (with_scaler a scaler') request_id raw = predict a request_id raw.
Proof. reflexivity. Qed.

Lemma predict_batch_scaler MAX_BATCH_SIZE raw :
  predict_batch (with_scaler a scaler') MAX_BATCH_SIZE raw
  = predict_batch a MAX_BATCH_SIZE raw.
Proof.
  unfold predict_batch. destruct raw; try reflexivity.
  all: by rewrite batch_loop_scaler.
Qed.

End ScalerUnused.

Section TrainingProofs.
Context {Model Scaler : Type} `{Regressor Model} `{Sklearn Model Scaler}.

Lemma main_bundle X y le_map feature_names b :
  main X y le_map feature_names = Ok b →
  ∃ X_train X_test y_train y_test,
    time_split X y test_ratio_default = Ok (X_train, X_test, y_train, y_test) ∧
    art_scaler b = StandardScaler_fit X_train ∧
    art_le_map b = le_map ∧ art_feature_names b = feature_names.
Proof.
  unfold main. intros Hmain.
  destruct (time_split X y test_ratio_default) as [[[[X_train X_test] y_train] y_test]|e];
    [|discriminate].
  exists X_train, X_test, y_train, y_test. split; [done|].
  simpl in Hmain.
  destruct (pick_best _) as [best|e]; [|discriminate].
  simpl in Hmain. by inversion Hmain.
Qed.

End TrainingProofs.

Section TraceProofs.
Context `{Fields} `{Builtins} {Model Scaler : Type} `{Regressor Model}.
Variable a : artifacts Model Scaler.

Lemma predict_trace request_id raw X :
  X ∈ (predict a request_id raw).2 →
  ∃ data, predict_schema_load raw = Ok data ∧ preprocess_input data a = Ok X.
Proof.
  unfold predict. intros HX.
  destruct raw; try (by apply elem_of_nil in HX);
    (destruct (predict_schema_load _) as [data|[]] eqn:Hload;
       try (by apply elem_of_nil in HX);
     destruct (preprocess_input data a) as [X'|e] eqn:Hpre;
       try (by apply elem_of_nil in HX);
     exists data; split; [done|];
     destruct (model_predict _ _); apply list_elem_of_singleton in HX; by subst).
Qed.

Lemma predict_batch_trace MAX_BATCH_SIZE raw X :
  X ∈ (predict_batch a MAX_BATCH_SIZE raw).2 →
  ∃ items, raw = JArr items ∧ X = vstack (valid_rows a items).
Proof.
  unfold predict_batch. intros HX.
  destruct raw as [| | | | |items|]; try (by apply elem_of_nil in HX).
  exists items. split; [done|].
  destruct (MAX_BATCH_SIZE <? Z.of_nat (length items)); [by apply elem_of_nil in HX|].
  destruct (batch_loop a _ _ items) as [st|e] eqn:Hloop; [|by apply elem_of_nil in HX].
  destruct (batch_loop_Ok a _ _ _ _ Hloop) as (_ & _ & Hrows). simpl in Hrows.
  rewrite Hrows in HX.
  destruct (valid_rows a items); [by apply elem_of_nil in HX|].
  apply list_elem_of_singleton in HX. by subst.
Qed.

End TraceProofs.

(** C2: every matrix the two endpoints hand to [model.predict] is what
    [preprocess_input] returned (stacked, for a batch), and a valid request
    hands over exactly that; the scaler of the bundle has no part in the
    response: replacing it changes nothing.  Training meanwhile fits the
    linear candidate on the scaled frame, and [main] puts the scaler fitted
    on the training split into the bundle. *)
Theorem serving_never_scales `{Fields} `{Builtins} {Model Scaler : Type}
    `{Regressor Model} `{Sklearn Model Scaler} (a : artifacts Model Scaler)
    (MAX_BATCH_SIZE : Z) :
  (∀ request_id raw data X,
     predict_schema_load raw = Ok data → preprocess_input data a = Ok X →
     (predict a request_id raw).2 = [X]) ∧
  (∀ request_id raw (X : ndarray), X ∈ (predict a request_id raw).2 →
     ∃ data, predict_schema_load raw = Ok data ∧ preprocess_input data a = Ok X) ∧
  (∀ items st,
     Z.of_nat (length items) ≤ MAX_BATCH_SIZE →
     batch_loop a (mkBatch [] [] []) 0 items = Ok st →
     valid_rows a items ≠ [] →
     (predict_batch a MAX_BATCH_SIZE (JArr items)).2 = [vstack (valid_rows a items)]) ∧
  (∀ raw (X : ndarray), X ∈ (predict_batch a MAX_BATCH_SIZE raw).2 →
     ∃ items, raw = JArr items ∧ X = vstack (valid_rows a items)) ∧
  (∀ (scaler' : Scaler) request_id raw,
     predict (with_scaler a scaler') request_id raw = predict a request_id raw ∧
     predict_batch (with_scaler a scaler') MAX_BATCH_SIZE raw
     = predict_batch a MAX_BATCH_SIZE raw) ∧
  (∀ X_train X_test y_train y_test,
     scale X_train X_test
     = (StandardScaler_transform (StandardScaler_fit X_train) X_train,
        StandardScaler_transform (StandardScaler_fit X_train) X_test,
        StandardScaler_fit X_train) ∧
     ∀ X_train_sc X_test_sc,
       (train_models X_train X_test y_train y_test X_train_sc X_test_sc).1.1.2
       = LinearRegression_fit X_train_sc y_train) ∧
  (∀ X y le_map feature_names b,
     main X y le_map feature_names = Ok b →
     ∃ X_train X_test y_train y_test,
       time_split X y test_ratio_default = Ok (X_train, X_test, y_train, y_test) ∧
       art_scaler b = StandardScaler_fit X_train ∧
       art_le_map b = le_map ∧ art_feature_names b = feature_names).
Proof.
  split; [|split; [|split; [|split; [|split; [|split]]]]].
  - intros request_id raw data X Hload Hpre.
    rewrite (predict_valid a request_id raw data X Hload Hpre).
    by destruct (model_predict _ _).
  - apply predict_trace.
  - intros items st Hlen Hloop Hne.
    rewrite (predict_batch_Ok a MAX_BATCH_SIZE items st Hlen Hloop).
    by destruct (valid_rows a items).
  - apply predict_batch_trace.
  - intros scaler' request_id raw. split.
    + apply predict_scaler.
    + apply predict_batch_scaler.
  - intros X_train X_test y_train y_test. split; reflexivity.
  - apply @main_bundle.
Qed.

Lemma serving_never_scales_witness :
  @predict_schema_load Examples.strict_fields (JObj Examples.request)
    = Ok Examples.request_data ∧
  preprocess_input Examples.request_data Examples.bundle
    = Ok [[VInt 0; VInt 1; VInt 120; VInt 30; VInt 50; VFloat (float_of_Z 20);
           VFloat (float_of_Z 10); VInt 3; VInt 1; VFloat (float_of_Z 19);
           VInt 1; VInt 0; VInt 2024; VInt 3; VInt 15; VInt 11; VInt 4; VInt 1]] ∧
  (@predict Examples.strict_fields Examples.identity_round nat unit
     Examples.column_regressor Examples.bundle "r-1" (JObj Examples.request)).2
  = [[[VInt 0; VInt 1; VInt 120; VInt 30; VInt 50; VFloat (float_of_Z 20);
       VFloat (float_of_Z 10); VInt 3; VInt 1; VFloat (float_of_Z 19);
       VInt 1; VInt 0; VInt 2024; VInt 3; VInt 15; VInt 11; VInt 4; VInt 1]]].
Proof.
  split; [vm_compute; reflexivity|]. split; [vm_compute; reflexivity|].
  apply (proj1 (@serving_never_scales Examples.strict_fields Examples.identity_round
                  nat unit Examples.column_regressor Examples.toy_sklearn
                  Examples.bundle 256) "r-1" (JObj Examples.request)
               Examples.request_data); vm_compute; reflexivity.
Defined.

(** The batch of the specification: the second of three records violates
    a range, and the response is ok, error, ok. *)
Example batch_ok_error_ok :
  (@predict_batch Examples.strict_fields Examples.identity_round nat unit
     Examples.column_regressor Examples.bundle 256
     (JArr [JObj Examples.request; JObj Examples.bad_request; JObj Examples.request])).1
  = R200_batch [BOk (float_of_Z 120); BError [("discount", OutOfRange)];
                BOk (float_of_Z 120)].
Proof. vm_compute. reflexivity. Qed.

(** ** The training pipeline *)

(** The literal [0.2] is the float nearest to one fifth. *)
Lemma test_ratio_default_nearest :
  SFdiv 53 1024 (float_of_Z 1) (float_of_Z 5) = test_ratio_default.
Proof. vm_compute. reflexivity. Qed.

(** Past [2^53] the length itself is rounded, and the index can leave
    [floor(4n/5)]. *)
Lemma split_index_beyond_2_53 :
  split_index (2 ^ 53 + 3) test_ratio_default = Ok 7205759403792797 ∧
  4 * (2 ^ 53 + 3) / 5 = 7205759403792796.
Proof. split; vm_compute; reflexivity. Qed.

Lemma slice_bound_nonneg (n : nat) (k : Z) :
  0 ≤ k → slice_bound n k = (Z.to_nat k `min` n)%nat.
Proof.
  intros Hk. unfold slice_bound.
  assert ((k <? 0) = false) as -> by (apply Z.ltb_ge; lia). lia.
Qed.

Lemma iloc_to_nonneg {A} (s : list A) (k : Z) : 0 ≤ k → iloc_to s k = take (Z.to_nat k) s.
Proof.
  intros Hk. unfold iloc_to. rewrite slice_bound_nonneg by done.
  destruct (Nat.le_ge_cases (Z.to_nat k) (length s)) as [Hle|Hge].
  - by rewrite Nat.min_l.
  - by rewrite Nat.min_r, !take_ge by lia.
Qed.

Lemma iloc_from_nonneg {A} (s : list A) (k : Z) : 0 ≤ k → iloc_from s k = drop (Z.to_nat k) s.
Proof.
  intros Hk. unfold iloc_from. rewrite slice_bound_nonneg by done.
  destruct (Nat.le_ge_cases (Z.to_nat k) (length s)) as [Hle|Hge].
  - by rewrite Nat.min_l.
  - by rewrite Nat.min_r, !drop_ge by lia.
Qed.

(** C4: for a dataset of [N < 2^50] records and the ratio [0.2],
    [time_split] returns as training subset the first [floor(4N/5)] records,
    by position, and as test subset the rest, in their order: no record at or
    after that index is in the training subset. *)
Theorem time_split_chronological {A B} (X : list A) (y : list B) :
  Z.of_nat (length X) < 2 ^ 50 →
  let k := Z.to_nat (4 * Z.of_nat (length X) / 5) in
  time_split X y test_ratio_default = Ok (take k X, drop k X, take k y, drop k y) ∧
  length (take k X) = k ∧
  length (drop k X) = (length X - k)%nat ∧
  (∀ i : nat, (i < k)%nat → take k X !! i = X !! i) ∧
  (∀ i : nat, (k ≤ i)%nat → take k X !! i = None) ∧
  (∀ i : nat, drop k X !! i = X !! (k + i)%nat) ∧
  take k X ++ drop k X = X.
Proof.
  intros Hn k.
  assert (0 ≤ 4 * Z.of_nat (length X) / 5 ≤ Z.of_nat (length X)) as Hk.
  { split; [apply Z.div_pos; lia|].
    apply Z.div_le_upper_bound; lia. }
  assert ((k ≤ length X)%nat) as Hkn by (unfold k; lia).
  split.
  - unfold time_split. rewrite split_index_default by lia.
    change (mbind ?f (Ok ?x)) with (f x). cbv beta.
    by rewrite !iloc_to_nonneg, !iloc_from_nonneg by lia.
  - split; [rewrite length_take; lia|].
    split; [by rewrite length_drop|].
    split; [intros i Hi; by apply lookup_take_lt|].
    split; [intros i Hi; apply lookup_take_ge; lia|].
    split; [intros i; apply lookup_drop|].
    apply take_drop.
Qed.

Lemma time_split_chronological_witness :
  Z.of_nat (length [1; 2; 3; 4; 5; 6; 7]) < 2 ^ 50 ∧
  time_split [1; 2; 3; 4; 5; 6; 7] ["a"; "b"; "c"; "d"; "e"; "f"; "g"] test_ratio_default
  = Ok ([1; 2; 3; 4; 5], [6; 7], ["a"; "b"; "c"; "d"; "e"], ["f"; "g"]).
Proof.
  split; [vm_compute; reflexivity|].
  apply (proj1 (time_split_chronological [1; 2; 3; 4; 5; 6; 7]
                  ["a"; "b"; "c"; "d"; "e"; "f"; "g"] ltac:(vm_compute; reflexivity))).
Defined.

(** C5: on a table that is not empty and holds no NaN as RMSE,
    [pick_best] returns the model of a row no row undercuts in RMSE; a row
    whose RMSE is below that of every other row is the one returned; the
    MAE and R2 columns have no part in the choice (so the winner need not be
    best in either, as in the example table). *)
Theorem pick_best_min_rmse (results_df : list metrics_row) :
  no_nan_rmse results_df → results_df ≠ [] →
  (∃ (i : nat) best, results_df !! i = Some best ∧
     pick_best results_df = Ok (model best) ∧
     ∀ (j : nat) r, results_df !! j = Some r → float_lt (RMSE r) (RMSE best) = false) ∧
  (∀ (i : nat) ri, results_df !! i = Some ri →
     (∀ (j : nat) r, j ≠ i → results_df !! j = Some r →
                     float_lt (RMSE ri) (RMSE r) = true) →
     pick_best results_df = Ok (model ri)) ∧
  (∀ t' : list metrics_row,
     model <$> t' = model <$> results_df → RMSE <$> t' = RMSE <$> results_df →
     pick_best t' = pick_best results_df) ∧
  (∃ lr rf xgb, Examples.table = [lr; rf; xgb] ∧
     pick_best Examples.table = Ok (model rf) ∧
     float_lt (MAE lr) (MAE rf) = true ∧ float_lt (R2 rf) (R2 xgb) = true).
Proof.
  intros Hnan Hne. split; [|split; [|split]].
  - destruct (pick_best_spec results_df Hnan Hne) as (i & best & Hi & Hpick & Hmin & _).
    eauto.
  - intros i ri Hi Hstrict.
    apply (pick_best_first_min results_df i ri Hnan Hi).
    + intros j r Hr. destruct (decide (j = i)) as [->|Hji].
      * rewrite Hi in Hr. inversion Hr. apply float_lt_irrefl.
      * apply not_true_is_false. intros Hlt.
        pose proof (float_lt_trans _ _ _ Hlt (Hstrict j r Hji Hr)) as Hrr.
        by rewrite float_lt_irrefl in Hrr.
    + intros j r Hj Hr. apply (Hstrict j r); [lia|done].
  - intros t' Hmodel Hrmse. by apply pick_best_ignores_MAE_R2.
  - do 3 eexists. split; [reflexivity|]. split; [|split]; vm_compute; reflexivity.
Qed.

Lemma example_table_no_nan : no_nan_rmse Examples.table.
Proof. repeat constructor. Qed.

Lemma pick_best_min_rmse_witness :
  no_nan_rmse Examples.table ∧ Examples.table ≠ [] ∧
  ∃ (i : nat) best, Examples.table !! i = Some best ∧
     pick_best Examples.table = Ok (model best) ∧
     ∀ (j : nat) r, Examples.table !! j = Some r →
                    float_lt (RMSE r) (RMSE best) = false.
Proof.
  split; [exact example_table_no_nan|]. split; [discriminate|].
  exact (proj1 (pick_best_min_rmse Examples.table example_table_no_nan
                  ltac:(discriminate))).
Defined.

(** C9: among the rows that tie on the least RMSE, [pick_best] returns the
    first of the table, and [train_models] fills the table in the order
    LinearRegression, RandomForest, XGBoost. *)
Theorem pick_best_first_of_ties {Model Scaler : Type} `{Regressor Model}
    `{Sklearn Model Scaler} (results_df : list metrics_row) (i : nat)
    (ri : metrics_row) :
  no_nan_rmse results_df →
  results_df !! i = Some ri →
  (∀ (j : nat) r, results_df !! j = Some r → float_lt (RMSE r) (RMSE ri) = false) →
  (∀ (j : nat) r, (j < i)%nat → results_df !! j = Some r →
                  float_lt (RMSE ri) (RMSE r) = true) →
  pick_best results_df = Ok (model ri) ∧
  (∀ (j : nat) rj, (i < j)%nat → results_df !! j = Some rj →
     float_lt (RMSE ri) (RMSE rj) = false →
     float_lt (RMSE rj) (RMSE ri) = false ∧ pick_best results_df = Ok (model ri)) ∧
  ∀ X_train X_test y_train y_test X_train_sc X_test_sc,
    model <$> (train_models X_train X_test y_train y_test X_train_sc X_test_sc).1.1.1
    = ["LinearRegression"; "RandomForest"; "XGBoost"].
Proof.
  intros Hnan Hi Hmin Hfirst.
  pose proof (pick_best_first_min results_df i ri Hnan Hi Hmin Hfirst) as Hpick.
  split; [done|]. split; [|done].
  intros j rj Hj Hrj Htie. split; [by apply (Hmin j)|done].
Qed.

(** A table whose three rows tie. *)
Lemma pick_best_first_of_ties_witness :
  no_nan_rmse
    (@train_models nat unit Examples.column_regressor Examples.toy_sklearn
       [[VInt 1; VInt 1; VInt 1]] [[VInt 4; VInt 4; VInt 4]] [VInt 1] [VInt 4]
       [[VInt 1; VInt 1; VInt 1]] [[VInt 4; VInt 4; VInt 4]]).1.1.1 ∧
  pick_best
    (@train_models nat unit Examples.column_regressor Examples.toy_sklearn
       [[VInt 1; VInt 1; VInt 1]] [[VInt 4; VInt 4; VInt 4]] [VInt 1] [VInt 4]
       [[VInt 1; VInt 1; VInt 1]] [[VInt 4; VInt 4; VInt 4]]).1.1.1
  = Ok "LinearRegression".
Proof.
  assert (no_nan_rmse
    (@train_models nat unit Examples.column_regressor Examples.toy_sklearn
       [[VInt 1; VInt 1; VInt 1]] [[VInt 4; VInt 4; VInt 4]] [VInt 1] [VInt 4]
       [[VInt 1; VInt 1; VInt 1]] [[VInt 4; VInt 4; VInt 4]]).1.1.1) as Hnan
    by (repeat constructor).
  split; [exact Hnan|].
  refine (proj1 (@pick_best_first_of_ties nat unit Examples.column_regressor
                   Examples.toy_sklearn _ 0%nat _ Hnan eq_refl _ _)).
  - intros j r Hr.
    destruct j as [|[|[|j]]]; inversion Hr; subst; vm_compute; reflexivity.
  - intros j r Hj. lia.
Defined.

(** * Further properties of the code *)

(** ** The schema *)

Lemma deserialize_inl {A} (de : json → option A) (validate : A → option field_error)
    (p : presence A) (raw_value : option json) (a : A) :
  deserialize de validate p raw_value = inl a →
  (raw_value = None ∧ p = load_default a) ∨
  (∃ v, raw_value = Some v ∧ v ≠ JNull ∧ de v = Some a ∧ validate a = None).
Proof.
  unfold deserialize. intros Hd.
  destruct raw_value as [v|].
  - right. exists v.
    destruct v; try discriminate;
      (destruct (de _) as [a'|] eqn:Hde; [|discriminate];
       destruct (validate a') eqn:Hv; [discriminate|];
       inversion Hd; subst; by repeat split).
  - left. destruct p; [discriminate|]. by inversion Hd.
Qed.

Lemma value_of_Some {A} (r : A + field_error) (a : A) : value_of r = Some a → r = inl a.
Proof. destruct r; simpl; congruence. Qed.

Lemma OneOf_None {A} `{EqDecision A} (choices : list A) (a : A) :
  OneOf choices a = None → a ∈ choices.
Proof. unfold OneOf. by destruct (decide (a ∈ choices)). Qed.

Lemma Range_min_int_None lo z : Range_min_int lo z = None → lo ≤ z.
Proof. unfold Range_min_int. destruct (z <? lo) eqn:Hlt; [done|]. intros _. lia. Qed.

Lemma Range_float_None lo hi x :
  Range_float lo hi x = None →
  float_lt x lo = false ∧ ∀ h, hi = Some h → float_lt h x = false.
Proof.
  unfold Range_float. destruct (float_lt x lo); [done|].
  destruct hi as [h|]; [|by split].
  destruct (float_lt h x) eqn:Hh; [done|]. intros _. split; [done|].
  by intros ? [= <-].
Qed.

(** The fields of a loaded record, one by one. *)
Lemma predict_schema_load_fields `{Fields} o data :
  predict_schema_load (JObj o) = Ok data →
  deserialize Date_deserialize (λ _, None) required (json_get "date" o) = inl (date data) ∧
  deserialize Str_deserialize (OneOf VALID_CATEGORIES) required (json_get "category" o)
    = inl (category data) ∧
  deserialize Str_deserialize (OneOf VALID_REGIONS) required (json_get "region" o)
    = inl (region data) ∧
  deserialize Int_deserialize (Range_min_int 0) required (json_get "inventory_level" o)
    = inl (inventory_level data) ∧
  deserialize Int_deserialize (Range_min_int 0) (load_default 0) (json_get "units_sold" o)
    = inl (units_sold data) ∧
  deserialize Int_deserialize (Range_min_int 0) required (json_get "units_ordered" o)
    = inl (units_ordered data) ∧
  deserialize Float_deserialize (Range_float (float_of_Z 0) None) required
    (json_get "price" o) = inl (price data) ∧
  deserialize Float_deserialize (Range_float (float_of_Z 0) (Some (float_of_Z 100)))
    required (json_get "discount" o) = inl (discount data) ∧
  deserialize Str_deserialize (OneOf VALID_WEATHER) required
    (json_get "weather_condition" o) = inl (weather_condition data) ∧
  deserialize Int_deserialize (OneOf [0; 1]) required (json_get "promotion" o)
    = inl (promotion data) ∧
  deserialize Float_deserialize (Range_float (float_of_Z 0) None) required
    (json_get "competitor_pricing" o) = inl (competitor_pricing data) ∧
  deserialize Str_deserialize (OneOf VALID_SEASONALITY) required
    (json_get "seasonality" o) = inl (seasonality data) ∧
  deserialize Int_deserialize (OneOf [0; 1]) required (json_get "epidemic" o)
    = inl (epidemic data).
Proof.
  unfold predict_schema_load. intros Hload.
  apply load_outcome_Ok in Hload as [_ Hval].
  repeat match type of Hval with
         | mbind _ ?r = Some _ =>
             let E := fresh "E" in
             destruct r eqn:E; [apply value_of_Some in E|discriminate];
             change (mbind ?f (Some ?x)) with (f x) in Hval; cbv beta in Hval
         end.
  inversion Hval; subst data. simpl. by repeat split.
Qed.

Lemma elem_of_flags (z : Z) : z ∈ [0; 1] → z = 0 ∨ z = 1.
Proof.
  intros Hz. apply elem_of_cons in Hz as [->|Hz]; [by left|].
  apply elem_of_cons in Hz as [->|Hz]; [by right|]. by apply elem_of_nil in Hz.
Qed.

(** X1: whatever the field types coerce, a record that [predict_schema.load]
    returns has its categorical fields in the declared vocabularies, its
    counts non-negative, its flags 0 or 1, and its price, competitor price
    and discount not below 0, the discount not above 100; a record loaded
    from an object without [units_sold] has 0 units sold. *)
Theorem validated_record_in_range `{Fields} (item : json) (data : Data) :
  predict_schema_load item = Ok data →
  category data ∈ VALID_CATEGORIES ∧ region data ∈ VALID_REGIONS ∧
  weather_condition data ∈ VALID_WEATHER ∧ seasonality data ∈ VALID_SEASONALITY ∧
  0 ≤ inventory_level data ∧ 0 ≤ units_sold data ∧ 0 ≤ units_ordered data ∧
  (promotion data = 0 ∨ promotion data = 1) ∧
  (epidemic data = 0 ∨ epidemic data = 1) ∧
  float_lt (price data) (float_of_Z 0) = false ∧
  float_lt (competitor_pricing data) (float_of_Z 0) = false ∧
  float_lt (discount data) (float_of_Z 0) = false ∧
  float_lt (float_of_Z 100) (discount data) = false ∧
  ∃ o, item = JObj o ∧ (json_get "units_sold" o = None → units_sold data = 0).
Proof.
  intros Hload. destruct (predict_schema_load_JObj _ _ Hload) as [o ->].
  destruct (predict_schema_load_fields o data Hload)
    as (_ & Hcat & Hreg & Hinv & Hsold & Hord & Hprice & Hdisc & Hwea & Hpro & Hcomp
        & Hsea & Hepi).
  apply deserialize_inl in Hcat as [[_ [=]]|(? & _ & _ & _ & Hcat)].
  apply deserialize_inl in Hreg as [[_ [=]]|(? & _ & _ & _ & Hreg)].
  apply deserialize_inl in Hinv as [[_ [=]]|(? & _ & _ & _ & Hinv)].
  apply deserialize_inl in Hord as [[_ [=]]|(? & _ & _ & _ & Hord)].
  apply deserialize_inl in Hprice as [[_ [=]]|(? & _ & _ & _ & Hprice)].
  apply deserialize_inl in Hdisc as [[_ [=]]|(? & _ & _ & _ & Hdisc)].
  apply deserialize_inl in Hwea as [[_ [=]]|(? & _ & _ & _ & Hwea)].
  apply deserialize_inl in Hpro as [[_ [=]]|(? & _ & _ & _ & Hpro)].
  apply deserialize_inl in Hcomp as [[_ [=]]|(? & _ & _ & _ & Hcomp)].
  apply deserialize_inl in Hsea as [[_ [=]]|(? & _ & _ & _ & Hsea)].
  apply deserialize_inl in Hepi as [[_ [=]]|(? & _ & _ & _ & Hepi)].
  apply OneOf_None in Hcat, Hreg, Hwea, Hsea, Hpro, Hepi.
  apply Range_min_int_None in Hinv, Hord.
  apply Range_float_None in Hprice as [Hprice _], Hcomp as [Hcomp _], Hdisc as [Hd0 Hd100].
  specialize (Hd100 _ eq_refl).
  assert (0 ≤ units_sold data ∧ (json_get "units_sold" o = None → units_sold data = 0))
    as [Hsold0 Hdefault].
  { apply deserialize_inl in Hsold as [[Hnone [= Hs]]|(v & Hv & _ & _ & Hsold)].
    - rewrite <- Hs. split; [lia|done].
    - apply Range_min_int_None in Hsold. split; [done|]. by rewrite Hv. }
  split; [exact Hcat|]. split; [exact Hreg|]. split; [exact Hwea|]. split; [exact Hsea|].
  split; [exact Hinv|]. split; [exact Hsold0|]. split; [exact Hord|].
  split; [by apply elem_of_flags|]. split; [by apply elem_of_flags|].
  split; [exact Hprice|]. split; [exact Hcomp|]. split; [exact Hd0|].
  split; [exact Hd100|].
  exists o. split; [reflexivity|exact Hdefault].
Qed.


Lemma validated_record_in_range_witness :
  @predict_schema_load Examples.strict_fields
    (JObj (filter (λ kv, kv.1 ≠ "units_sold") Examples.request))
  = Ok (mkData (datetime.mkdate 2024 3 15) "Toys" "North" 120 0 50 (float_of_Z 20)
          (float_of_Z 10) "Sunny" 1 (float_of_Z 19) "Spring" 0) ∧
  0 ≤ 120 ∧ "Toys" ∈ VALID_CATEGORIES.
Proof.
  assert (@predict_schema_load Examples.strict_fields
            (JObj (filter (λ kv, kv.1 ≠ "units_sold") Examples.request))
          = Ok (mkData (datetime.mkdate 2024 3 15) "Toys" "North" 120 0 50 (float_of_Z 20)
                  (float_of_Z 10) "Sunny" 1 (float_of_Z 19) "Spring" 0)) as Hload
    by (vm_compute; reflexivity).
  split; [exact Hload|].
  destruct (@validated_record_in_range Examples.strict_fields _ _ Hload)
    as (Hcat & _ & _ & _ & Hinv & _).
  split; [exact Hinv | exact Hcat].
Defined.

Lemma store_error_nil {A} name (r : A + field_error) :
  store_error name r = [] → ∃ a, r = inl a.
Proof. destruct r; [eauto|discriminate]. Qed.

Lemma store_error_elem {A} name (r : A + field_error) x :
  x ∈ store_error name r → x.1 = name.
Proof.
  destruct r; simpl; intros Hx; [by apply elem_of_nil in Hx|].
  by apply list_elem_of_singleton in Hx as ->.
Qed.

Lemma store_error_missing {A} name (de : json → option A) validate :
  (name, Missing) ∈ store_error name (deserialize de validate required None).
Proof. apply list_elem_of_singleton. reflexivity. Qed.

Lemma store_error_null {A} name (de : json → option A) validate p :
  (name, Null) ∈ store_error name (deserialize de validate p (Some JNull)).
Proof. apply list_elem_of_singleton. reflexivity. Qed.

Ltac in_segment :=
  repeat first [ apply elem_of_app; left;
                 first [apply store_error_missing | apply store_error_null]
               | apply elem_of_app; right ].

(** The messages of a load: what they hold, and that the load raises them
    unless there is none. *)
Lemma predict_schema_load_messages `{Fields} (o : list (string * json)) :
  ∃ msgs,
    match predict_schema_load (JObj o) with
    | Ok _ => msgs = []
    | Raise e => e = ValidationError msgs ∧ msgs ≠ []
    end ∧
    (∀ name, name ∈ schema_fields → name ≠ "units_sold" → json_get name o = None →
             (name, Missing) ∈ msgs) ∧
    (∀ name, name ∈ schema_fields → json_get name o = Some JNull →
             (name, Null) ∈ msgs) ∧
    (∀ k v, (k, v) ∈ o → k ∉ schema_fields → (k, Unknown) ∈ msgs) ∧
    (∀ name e, (name, e) ∈ msgs → name ∈ schema_fields ∨ (e = Unknown ∧ ∃ v, (name, v) ∈ o)).
Proof.
  unfold predict_schema_load. cbv zeta.
  match goal with
  | |- context [match ?errs with [] => _ | _ :: _ => _ end] => set (errors := errs)
  end.
  match goal with
  | |- context [match errors with
                | [] => match ?l with _ => _ end
                | _ :: _ => _ end] => set (loaded := l)
  end.
  exists errors. split; [|split; [|split; [|split]]].
  - destruct errors as [|m errors'] eqn:Herr; [|done].
    assert (is_Some loaded) as [data ->]; [|done].
    subst errors loaded.
    repeat (apply app_eq_nil in Herr as [?%store_error_nil Herr]).
    repeat match goal with Hs : ∃ a, _ = inl a |- _ => destruct Hs as [? ->] end.
    simpl. eauto.
  - intros name Hname Hne Hnone. subst errors.
    unfold schema_fields in Hname.
    repeat (apply elem_of_cons in Hname as [Hname|Hname];
            [subst name; first [ by destruct Hne
                               | rewrite Hnone; in_segment ]|]).
    by apply elem_of_nil in Hname.
  - intros name Hname Hnull. subst errors.
    unfold schema_fields in Hname.
    repeat (apply elem_of_cons in Hname as [Hname|Hname];
            [subst name; rewrite Hnull; in_segment|]).
    by apply elem_of_nil in Hname.
  - intros k v Hkv Hk. subst errors.
    repeat (apply elem_of_app; right).
    unfold unknown_errors. apply list_elem_of_fmap.
    exists (k, v). split; [done|]. by apply list_elem_of_filter.
  - intros name e Hin. subst errors.
    repeat (apply elem_of_app in Hin as [Hin|Hin];
            [left; apply store_error_elem in Hin; simpl in Hin; subst name;
             unfold schema_fields; repeat first [left | right]|]).
    right. unfold unknown_errors in Hin.
    apply list_elem_of_fmap in Hin as ([k v] & [= -> ->] & Hkv).
    apply list_elem_of_filter in Hkv as [_ Hkv]. eauto.
Qed.

(** X2: validation does not stop at the first error.  The load of an object
    either returns a record, and then there is no message, or raises
    [ValidationError] with messages that name every required field that is
    missing, every field that is null and every key that is no field of the
    schema, and nothing but fields of the schema and keys of the object; an
    absent [units_sold] is no error.  What is no object is rejected as an
    invalid input. *)
Theorem schema_reports_every_error `{Fields} :
  (∀ o : list (string * json), ∃ msgs,
     match predict_schema_load (JObj o) with
     | Ok _ => msgs = []
     | Raise e => e = ValidationError msgs ∧ msgs ≠ []
     end ∧
     (∀ name, name ∈ schema_fields → name ≠ "units_sold" → json_get name o = None →
              (name, Missing) ∈ msgs) ∧
     (∀ name, name ∈ schema_fields → json_get name o = Some JNull →
              (name, Null) ∈ msgs) ∧
     (∀ k v, (k, v) ∈ o → k ∉ schema_fields → (k, Unknown) ∈ msgs) ∧
     (∀ name e, (name, e) ∈ msgs →
                name ∈ schema_fields ∨ (e = Unknown ∧ ∃ v, (name, v) ∈ o))) ∧
  (∀ item, (∀ o, item ≠ JObj o) →
     predict_schema_load item = Raise (ValidationError [("_schema", InvalidInputType)])).
Proof.
  split; [apply predict_schema_load_messages|].
  intros item Hitem. destruct item as [| | | | | |o]; try reflexivity. by destruct (Hitem o).
Qed.

Section BatchAlignment.
Context `{Fields} `{Builtins} {Model Scaler : Type} `{Regressor Model}.
Variable a : artifacts Model Scaler.

Lemma valid_positions_length i j items :
  length (valid_positions i items) = length (valid_positions j items).
Proof.
  revert i j. induction items as [|item items IH]; intros i j; simpl; [done|].
  destruct (predict_schema_load item); simpl; [f_equal|]; apply IH.
Qed.

Lemma batch_loop_invalid st i items :
  (∀ item data, item ∈ items → predict_schema_load item ≠ Ok data) →
  batch_loop a st i items
  = Ok (mkBatch (results st ++ (loop_entry <$> items)) (valid_indices st) (rows st)).
Proof.
  revert st i. induction items as [|item items IH]; intros st i Hinv; simpl.
  - rewrite app_nil_r. by destruct st.
  - destruct (predict_schema_load item) as [data|e] eqn:Hl.
    + destruct (Hinv item data); [by left|done].
    + destruct (predict_schema_load_raises _ _ Hl) as [err ->].
      rewrite (batch_step_invalid a _ _ _ _ Hl).
      change (mbind ?f (Ok ?x)) with (f x). cbv beta.
      rewrite IH by (intros it d Hit; apply Hinv; by right).
      simpl. unfold loop_entry at 2. rewrite Hl. by rewrite <- app_assoc.
Qed.

Lemma batch_loop_incomplete st i items :
  ¬ bundle_complete a →
  (∃ item data, item ∈ items ∧ predict_schema_load item = Ok data) →
  ∃ missing, batch_loop a st i items = Raise (KeyError missing).
Proof.
  intros Hnc. revert st i. induction items as [|item items IH]; intros st i Hex.
  - destruct Hex as (it & d & Hit & _). by apply elem_of_nil in Hit.
  - simpl. destruct (predict_schema_load item) as [data|e] eqn:Hl.
    + destruct (preprocess_input data a) as [X|e] eqn:Hp.
      * destruct Hnc. by eapply preprocess_input_complete.
      * rewrite (batch_step_uncaught a _ _ _ _ _ Hl Hp).
        destruct (preprocess_input_raises _ _ _ Hp) as [ms ->]. by exists ms.
    + destruct (predict_schema_load_raises _ _ Hl) as [err ->].
      rewrite (batch_step_invalid a _ _ _ _ Hl).
      change (mbind ?f (Ok ?x)) with (f x). cbv beta. apply IH.
      destruct Hex as (it & d & Hit & Hd).
      apply elem_of_cons in Hit as [->|Hit]; [congruence|eauto].
Qed.

Lemma aligned_entries_nil items : aligned_entries items [] = loop_entry <$> items.
Proof.
  induction items as [|item items IH]; simpl; [done|].
  unfold loop_entry at 2.
  destruct (predict_schema_load item) as [data|e] eqn:Hl; simpl; rewrite IH; [done|].
  unfold loop_entry. by rewrite Hl.
Qed.

Lemma fill_results_aligned pre items preds :
  fill_results (pre ++ (loop_entry <$> items))
    (zip (valid_positions (length pre) items) preds)
  = pre ++ aligned_entries items preds.
Proof.
  revert pre preds. induction items as [|item items IH]; intros pre preds.
  - simpl. by rewrite app_nil_r.
  - simpl. unfold loop_entry at 1.
    destruct (predict_schema_load item) as [data|e] eqn:Hl.
    + destruct preds as [|p preds]; simpl.
      * by rewrite aligned_entries_nil.
      * unfold fill_results. simpl. fold fill_results.
        rewrite insert_app_r_alt by lia. rewrite Nat.sub_diag. simpl.
        specialize (IH (pre ++ [BOk (round2 p)]) preds).
        rewrite length_app in IH. simpl in IH. rewrite Nat.add_1_r in IH.
        rewrite <- !app_assoc in IH. exact IH.
    + specialize (IH (pre ++ [loop_entry item]) preds).
      rewrite length_app in IH. simpl in IH. rewrite Nat.add_1_r in IH.
      rewrite <- !app_assoc in IH. simpl in IH.
      unfold loop_entry at 1 in IH. rewrite Hl in IH. exact IH.
Qed.

Lemma aligned_entries_length items preds :
  length (aligned_entries items preds) = length items.
Proof.
  revert preds. induction items as [|item items IH]; intros preds; simpl; [done|].
  destruct (predict_schema_load item); simpl; by rewrite IH.
Qed.

Lemma valid_rank_cons_Ok item items (i : nat) data :
  predict_schema_load item = Ok data →
  valid_rank (item :: items) (S i) = S (valid_rank items i).
Proof.
  intros Hl. unfold valid_rank. simpl. rewrite Hl. simpl.
  f_equal. apply valid_positions_length.
Qed.

Lemma valid_rank_cons_Raise item items (i : nat) e :
  predict_schema_load item = Raise e →
  valid_rank (item :: items) (S i) = valid_rank items i.
Proof.
  intros Hl. unfold valid_rank. simpl. rewrite Hl. apply valid_positions_length.
Qed.

Lemma aligned_entries_lookup items preds (i : nat) item :
  items !! i = Some item →
  aligned_entries items preds !! i
  = Some match predict_schema_load item with
         | Ok _ => entry_of_pred (preds !! valid_rank items i)
         | Raise _ => loop_entry item
         end.
Proof.
  revert preds i. induction items as [|item0 items IH]; intros preds i Hi; [done|].
  destruct i as [|i]; simpl in Hi.
  - inversion Hi; subst item0. simpl.
    destruct (predict_schema_load item); simpl; [|done].
    unfold valid_rank. simpl. by destruct preds.
  - simpl. destruct (predict_schema_load item0) as [d0|e0] eqn:Hl0; simpl.
    + rewrite (IH _ _ Hi), (valid_rank_cons_Ok _ _ _ _ Hl0).
      by destruct preds.
    + by rewrite (IH _ _ Hi), (valid_rank_cons_Raise _ _ _ _ Hl0).
Qed.

Lemma valid_rank_lt items (i : nat) item data :
  items !! i = Some item → predict_schema_load item = Ok data →
  (valid_rank items i < length (valid_positions 0 items))%nat.
Proof.
  revert i. induction items as [|item0 items IH]; intros i Hi Hl; [done|].
  destruct i as [|i]; simpl in Hi.
  - inversion Hi; subst item0. unfold valid_rank. simpl. rewrite Hl. simpl. lia.
  - specialize (IH i Hi Hl). simpl.
    destruct (predict_schema_load item0) as [d0|e0] eqn:Hl0.
    + rewrite (valid_rank_cons_Ok _ _ _ _ Hl0). simpl.
      rewrite (valid_positions_length 1 0). lia.
    + rewrite (valid_rank_cons_Raise _ _ _ _ Hl0).
      by rewrite (valid_positions_length 1 0).
Qed.

Lemma valid_rows_complete (i : nat) items :
  bundle_complete a →
  length (valid_rows a items) = length (valid_positions i items) ∧
  length (vstack (valid_rows a items)) = length (valid_positions i items).
Proof.
  intros Hc. revert i. unfold valid_rows, vstack.
  induction items as [|item items IH]; intros i; [done|]. csimpl.
  destruct (predict_schema_load item) as [data|e]; [|apply IH].
  destruct (preprocess_input_total data a Hc) as [X HX]. rewrite HX.
  destruct (preprocess_input_Ok data a X HX) as (row & v & _ & -> & _).
  destruct (IH (S i)) as [IH1 IH2]. simpl. by rewrite IH1, IH2.
Qed.

End BatchAlignment.

(** X3: a batch within the limit in which no item validates is answered, by
    any bundle, with status 200 and one error entry per item, in order, each
    with the messages of its item; the model is not called.  The empty
    batch is such a batch. *)
Theorem batch_without_valid_item `{Fields} `{Builtins} {Model Scaler : Type}
    `{Regressor Model} (a : artifacts Model Scaler) (MAX_BATCH_SIZE : Z)
    (items : list json) :
  Z.of_nat (length items) ≤ MAX_BATCH_SIZE →
  (∀ item data, item ∈ items → predict_schema_load item ≠ Ok data) →
  ∃ rs, predict_batch a MAX_BATCH_SIZE (JArr items) = (R200_batch rs, []) ∧
        length rs = length items ∧
        (items = [] → rs = []) ∧
        ∀ (i : nat) item, items !! i = Some item →
          ∃ err, predict_schema_load item = Raise (ValidationError err) ∧
                 rs !! i = Some (BError err).
Proof.
  intros Hlen Hinv. exists (loop_entry <$> items).
  split; [|split; [|split]].
  - unfold predict_batch.
    assert ((MAX_BATCH_SIZE <? Z.of_nat (length items)) = false) as ->
      by (apply Z.ltb_ge; lia).
    by rewrite (batch_loop_invalid a _ _ _ Hinv).
  - by rewrite length_fmap.
  - by intros ->.
  - intros i item Hi. rewrite list_lookup_fmap, Hi. simpl. unfold loop_entry.
    destruct (predict_schema_load item) as [data|e] eqn:Hl.
    + destruct (Hinv item data); [by eapply list_elem_of_lookup_2|done].
    + destruct (predict_schema_load_raises _ _ Hl) as [err ->]. eauto.
Qed.

Lemma batch_without_valid_item_witness :
  Z.of_nat (length [JObj Examples.bad_request; JStr "x"]) ≤ 256 ∧
  ∃ rs, @predict_batch Examples.strict_fields Examples.identity_round nat unit
          Examples.column_regressor Examples.stale_bundle 256
          (JArr [JObj Examples.bad_request; JStr "x"]) = (R200_batch rs, []) ∧
        length rs = 2%nat.
Proof.
  split; [vm_compute; discriminate|].
  destruct (@batch_without_valid_item Examples.strict_fields Examples.identity_round
              nat unit Examples.column_regressor Examples.stale_bundle 256
              [JObj Examples.bad_request; JStr "x"]) as (rs & Hrs & Hlen & _).
  - vm_compute. discriminate.
  - intros item data Hin.
    apply elem_of_cons in Hin as [->|Hin]; [vm_compute; discriminate|].
    apply elem_of_cons in Hin as [->|Hin]; [vm_compute; discriminate|].
    by apply elem_of_nil in Hin.
  - exists rs. by split.
Defined.

(** X4: whatever the model returns, a batch within the limit served by a
    complete bundle calls it on one row per valid item, and the item with
    [k] valid items before it receives the forecast at position [k], rounded;
    if the model returns fewer forecasts, the entry stays the placeholder,
    and forecasts beyond the number of valid items are dropped.  An invalid
    item has its error entry at its own index. *)
Theorem batch_alignment `{Fields} `{Builtins} {Model Scaler : Type}
    `{Regressor Model} (a : artifacts Model Scaler) (MAX_BATCH_SIZE : Z)
    (items : list json) :
  bundle_complete a →
  Z.of_nat (length items) ≤ MAX_BATCH_SIZE →
  let X_batch := vstack (valid_rows a items) in
  let preds := model_predict (art_model a) X_batch in
  length X_batch = length (valid_positions 0 items) ∧
  ∃ rs, (predict_batch a MAX_BATCH_SIZE (JArr items)).1 = R200_batch rs ∧
    length rs = length items ∧
    ∀ (i : nat) item, items !! i = Some item →
      (∀ data, predict_schema_load item = Ok data →
         (valid_rank items i < length (valid_positions 0 items))%nat ∧
         rs !! i = Some (entry_of_pred (preds !! valid_rank items i))) ∧
      (∀ err, predict_schema_load item = Raise (ValidationError err) →
         rs !! i = Some (BError err)).
Proof.
  intros Hc Hlen X_batch preds.
  destruct (valid_rows_complete a 0%nat items Hc) as [Hrows Hstack].
  split; [exact Hstack|].
  exists (aligned_entries items preds).
  split; [|split].
  - destruct (batch_loop_total a (mkBatch [] [] []) 0%nat items Hc) as [st Hst].
    rewrite (predict_batch_Ok a MAX_BATCH_SIZE items st Hlen Hst).
    pose proof (fill_results_aligned [] items preds) as Hfill. simpl in Hfill.
    destruct (valid_rows a items) eqn:Hvr; simpl.
    + rewrite <- Hfill. simpl in Hrows.
      destruct (valid_positions 0 items); [done|discriminate].
    + by rewrite <- Hfill.
  - apply aligned_entries_length.
  - intros i item Hi. rewrite (aligned_entries_lookup _ _ _ _ Hi). split.
    + intros data Hl. rewrite Hl. split; [|done].
      by eapply valid_rank_lt.
    + intros err Hl. rewrite Hl. unfold loop_entry. by rewrite Hl.
Qed.

Lemma batch_alignment_witness :
  bundle_complete Examples.bundle ∧
  Z.of_nat (length [JObj Examples.request; JObj Examples.bad_request; JObj Examples.request])
    ≤ 256 ∧
  length (vstack (@valid_rows Examples.strict_fields nat unit Examples.bundle
                    [JObj Examples.request; JObj Examples.bad_request;
                     JObj Examples.request]))
  = 2%nat.
Proof.
  split; [exact example_bundle_complete|]. split; [vm_compute; discriminate|].
  exact (proj1 (@batch_alignment Examples.strict_fields Examples.identity_round nat unit
                  Examples.column_regressor Examples.bundle 256
                  [JObj Examples.request; JObj Examples.bad_request; JObj Examples.request]
                  example_bundle_complete ltac:(vm_compute; discriminate))).
Defined.

(** X5: on a bundle that is not complete, one item that validates makes the
    whole batch fail: the [KeyError] of [preprocess_input] is not caught by
    the loop, the answer is status 500, the errors of the invalid items are
    not reported, and the model is not called. *)
Theorem batch_incomplete_bundle `{Fields} `{Builtins} {Model Scaler : Type}
    `{Regressor Model} (a : artifacts Model Scaler) (MAX_BATCH_SIZE : Z)
    (items : list json) (item : json) (data : Data) :
  ¬ bundle_complete a →
  Z.of_nat (length items) ≤ MAX_BATCH_SIZE →
  item ∈ items → predict_schema_load item = Ok data →
  ∃ missing, predict_batch a MAX_BATCH_SIZE (JArr items) = (R500 (KeyError missing), []).
Proof.
  intros Hnc Hlen Hin Hl. unfold predict_batch.
  assert ((MAX_BATCH_SIZE <? Z.of_nat (length items)) = false) as ->
    by (apply Z.ltb_ge; lia).
  destruct (batch_loop_incomplete a (mkBatch [] [] []) 0%nat items Hnc) as [missing ->];
    [by exists item, data|].
  by exists missing.
Qed.

Lemma stale_bundle_incomplete : ¬ bundle_complete Examples.stale_bundle.
Proof.
  intros [_ Hfn]. apply Forall_cons in Hfn as [Hstore _].
  unfold row_columns in Hstore.
  repeat (apply elem_of_cons in Hstore as [Hstore|Hstore]; [discriminate Hstore|]).
  by apply elem_of_nil in Hstore.
Qed.

Lemma batch_incomplete_bundle_witness :
  Z.of_nat (length [JObj Examples.bad_request; JObj Examples.request]) ≤ 256 ∧
  JObj Examples.request ∈ [JObj Examples.bad_request; JObj Examples.request] ∧
  @predict_schema_load Examples.strict_fields (JObj Examples.request)
  = Ok Examples.request_data ∧
  ∃ missing,
    @predict_batch Examples.strict_fields Examples.identity_round nat unit
      Examples.column_regressor Examples.stale_bundle 256
      (JArr [JObj Examples.bad_request; JObj Examples.request])
    = (R500 (KeyError missing), []).
Proof.
  split; [vm_compute; discriminate|].
  split; [apply elem_of_cons; right; apply elem_of_cons; by left|].
  split; [vm_compute; reflexivity|].
  apply (@batch_incomplete_bundle Examples.strict_fields Examples.identity_round nat unit
           Examples.column_regressor Examples.stale_bundle 256
           [JObj Examples.bad_request; JObj Examples.request] (JObj Examples.request)
           Examples.request_data stale_bundle_incomplete).
  - vm_compute. discriminate.
  - apply elem_of_cons; right; apply elem_of_cons; by left.
  - vm_compute. reflexivity.
Defined.

Lemma encode_columns_same_codes le_map data data' cks row :
  (∀ col key le, (col, key) ∈ cks → le_map !! col = Some le →
                 code_of le (key data) = code_of le (key data')) →
  encode_columns le_map data cks row = encode_columns le_map data' cks row.
Proof.
  revert row. induction cks as [|[col key] cks IH]; intros row Hcodes; [done|].
  simpl. destruct (le_map !! col) as [le|] eqn:Hle.
  - rewrite !(encode_column_Some _ _ _ _ _ _ Hle).
    rewrite (Hcodes col key le); [|by left|done].
    apply IH. intros c k l Hin. apply Hcodes. by right.
  - by rewrite !(encode_column_None _ _ _ _ _ Hle).
Qed.

Lemma code_of_unseen le s : s ∉ classes_ le → code_of le s = 0.
Proof. intros Hs. apply index_of_None in Hs. unfold code_of. by rewrite Hs. Qed.

Lemma code_of_head le s : head (classes_ le) = Some s → code_of le s = 0.
Proof.
  unfold code_of. destruct (classes_ le) as [|c l]; [done|].
  intros [= ->]. simpl. by rewrite decide_True.
Qed.

Lemma index_of_lookup s l i :
  index_of s l = Some i → l !! Z.to_nat i = Some s ∧ 0 ≤ i < Z.of_nat (length l).
Proof.
  revert i. induction l as [|c l IH]; intros i; simpl; [done|].
  destruct (decide (c = s)) as [->|Hne].
  - intros [= <-]. split; [done|lia].
  - destruct (index_of s l) as [j|]; simpl; [|done].
    intros [= <-]. destruct (IH j eq_refl) as [Hj Hb].
    rewrite Z2Nat.inj_succ by lia. split; [done|lia].
Qed.

Lemma index_of_elem s l : s ∈ l → is_Some (index_of s l).
Proof.
  intros Hs. destruct (index_of s l) eqn:Hi; [eauto|].
  by apply index_of_None in Hi.
Qed.

(** X6: an unseen label is encoded as the first class of its encoder: two
    records that give the same dictionary literal, and whose categorical
    fields are equal or else one unseen and the other the first class, have
    the same outcome of [preprocess_input], matrix or error. *)
Theorem unseen_label_is_first_class {Model Scaler} (a : artifacts Model Scaler)
    (data data' : Data) :
  base_row data = base_row data' →
  (∀ col key le, (col, key) ∈ col_key_map → art_le_map a !! col = Some le →
     key data = key data' ∨
     ((key data ∉ classes_ le) ∧ head (classes_ le) = Some (key data'))) →
  preprocess_input data a = preprocess_input data' a.
Proof.
  intros Hbase Hfields. unfold preprocess_input, assemble_row. rewrite Hbase.
  rewrite (encode_columns_same_codes _ data data'); [done|].
  intros col key le Hin Hle.
  destruct (Hfields col key le Hin Hle) as [->|[Hunseen Hhead]]; [done|].
  by rewrite (code_of_unseen _ _ Hunseen), (code_of_head _ _ Hhead).
Qed.

Lemma unseen_label_is_first_class_witness :
  preprocess_input Examples.request_data Examples.bundle
  = preprocess_input
      (mkData (datetime.mkdate 2024 3 15) "Clothing" "North" 120 30 50 (float_of_Z 20)
         (float_of_Z 10) "Sunny" 1 (float_of_Z 19) "Spring" 0) Examples.bundle.
Proof.
  apply unseen_label_is_first_class; [reflexivity|].
  intros col key le Hin Hle. unfold col_key_map in Hin.
  apply elem_of_cons in Hin as [Hin|Hin].
  - inversion Hin; subst col key.
    assert (le = mkLabelEncoder ["Clothing"; "Electronics"; "Furniture"; "Groceries"])
      as -> by (apply (inj Some); rewrite <- Hle; reflexivity).
    right. split; [apply index_of_None; reflexivity|reflexivity].
  - repeat (apply elem_of_cons in Hin as [Hin|Hin];
            [inversion Hin; subst col key; left; reflexivity|]).
    by apply elem_of_nil in Hin.
Defined.

(** X7: a label the encoder has seen is encoded by its position among the
    classes, so the code leads back to the label and two seen labels with
    the same code in the assembled row are the same label: the codes of a
    categorical column tell its seen labels apart. *)
Theorem seen_label_round_trip {Model Scaler} (a : artifacts Model Scaler)
    (data : Data) (col : string) (key : Data → string) (le : LabelEncoder)
    (row : gmap string value) :
  (col, key) ∈ col_key_map →
  art_le_map a !! col = Some le →
  key data ∈ classes_ le →
  assemble_row data a = Ok row →
  ∃ code, row !! col = Some (VInt code) ∧
    transform le [key data] = Ok [code] ∧
    0 ≤ code < Z.of_nat (length (classes_ le)) ∧
    classes_ le !! Z.to_nat code = Some (key data) ∧
    ∀ data' row', key data' ∈ classes_ le → assemble_row data' a = Ok row' →
                  row' !! col = Some (VInt code) → key data' = key data.
Proof.
  intros Hin Hle Hseen Hrow.
  destruct (index_of_elem _ _ Hseen) as [code Hcode].
  destruct (index_of_lookup _ _ _ Hcode) as [Hlook Hbound].
  assert (∀ d r, assemble_row d a = Ok r → r !! col = Some (VInt (code_of le (key d))))
    as Hrc.
  { intros d r Hr. unfold assemble_row in Hr.
    exact (encode_columns_code _ _ _ _ _ _ _ _ col_key_map_NoDup Hin Hle Hr). }
  exists code. split; [|split; [|split; [|split]]].
  - rewrite (Hrc _ _ Hrow). unfold code_of. by rewrite Hcode.
  - by rewrite transform_singleton, Hcode.
  - exact Hbound.
  - exact Hlook.
  - intros data' row' Hseen' Hrow' Hsame.
    rewrite (Hrc _ _ Hrow') in Hsame. injection Hsame as Hsame.
    destruct (index_of_elem _ _ Hseen') as [code' Hcode'].
    unfold code_of in Hsame. rewrite Hcode' in Hsame. simpl in Hsame. subst code'.
    destruct (index_of_lookup _ _ _ Hcode') as [Hlook' _].
    rewrite Hlook in Hlook'. by injection Hlook'.
Qed.

Lemma seen_label_round_trip_witness :
  ("Region", region) ∈ col_key_map ∧
  region Examples.request_data ∈ ["East"; "North"; "South"; "West"] ∧
  ∃ row code, assemble_row Examples.request_data Examples.bundle = Ok row ∧
    row !! "Region" = Some (VInt code) ∧
    ["East"; "North"; "South"; "West"] !! Z.to_nat code = Some "North".
Proof.
  assert (("Region", region) ∈ col_key_map) as Hin
    by (apply elem_of_cons; right; apply elem_of_cons; by left).
  assert (region Examples.request_data ∈ ["East"; "North"; "South"; "West"]) as Hseen
    by (apply elem_of_cons; right; apply elem_of_cons; by left).
  split; [exact Hin|]. split; [exact Hseen|].
  destruct (preprocess_input_total Examples.request_data Examples.bundle
              example_bundle_complete) as [X HX].
  destruct (preprocess_input_Ok _ _ _ HX) as (row & v & Hrow & _).
  destruct (seen_label_round_trip Examples.bundle Examples.request_data "Region" region
              (mkLabelEncoder ["East"; "North"; "South"; "West"]) row Hin eq_refl Hseen
              Hrow) as (code & Hcol & _ & _ & Hlook & _).
  by exists row, code.
Defined.

Lemma days_before_year_succ (y : Z) :
  datetime._days_before_year (y + 1)
  = datetime._days_before_year y + (if datetime._is_leap y then 366 else 365).
Proof.
  unfold datetime._days_before_year, datetime._is_leap. cbv zeta.
  replace (y + 1 - 1) with y by lia.
  assert (∀ n, 0 < n → y / n = (y - 1) / n + (if y mod n =? 0 then 1 else 0)) as Hstep.
  { intros n Hn. pose proof (Z.div_mod y n ltac:(lia)) as Hdm.
    pose proof (Z.mod_pos_bound y n Hn) as Hb.
    destruct (Z.eqb_spec (y mod n) 0) as [H0|H0].
    - assert (y / n - 1 = (y - 1) / n); [|lia].
      apply (Z.div_unique _ _ _ (n - 1)); [lia|]. rewrite H0 in Hdm. lia.
    - assert (y / n = (y - 1) / n); [|lia].
      apply (Z.div_unique _ _ _ (y mod n - 1)); lia. }
  rewrite (Hstep 4), (Hstep 100), (Hstep 400) by lia.
  assert (y mod 100 = 0 → y mod 4 = 0).
  { intros H0. rewrite <- (Z.mod_mod_divide y 100 4), H0; [done|]. by exists 25. }
  assert (y mod 400 = 0 → y mod 100 = 0).
  { intros H0. rewrite <- (Z.mod_mod_divide y 400 100), H0; [done|]. by exists 4. }
  destruct (Z.eqb_spec (y mod 4) 0), (Z.eqb_spec (y mod 100) 0),
    (Z.eqb_spec (y mod 400) 0); simpl; lia.
Qed.

Lemma day_of_year_bounds (y m d : Z) :
  1 ≤ m ≤ 12 → 1 ≤ d ≤ days_in_month y m →
  1 ≤ datetime._days_before_month y m + d ≤ (if datetime._is_leap y then 366 else 365).
Proof.
  intros Hm Hd. unfold days_in_month in Hd. unfold datetime._days_before_month.
  change (leap_year y) with (datetime._is_leap y) in Hd.
  assert (m = 1 ∨ m = 2 ∨ m = 3 ∨ m = 4 ∨ m = 5 ∨ m = 6 ∨ m = 7 ∨ m = 8 ∨ m = 9 ∨
          m = 10 ∨ m = 11 ∨ m = 12) as Hcases by lia.
  destruct (datetime._is_leap y);
    (destruct Hcases as [->|[->|[->|[->|[->|[->|[->|[->|[->|[->|[->| ->]]]]]]]]]]];
     simpl in *;
     match goal with
     | |- context [datetime._DAYS_BEFORE_MONTH ?k] =>
         let v := eval vm_compute in (datetime._DAYS_BEFORE_MONTH k) in
         change (datetime._DAYS_BEFORE_MONTH k) with v
     end; lia).
Qed.

Lemma ymd2ord_jan1 (y : Z) : datetime._ymd2ord y 1 1 = datetime._days_before_year y + 1.
Proof.
  unfold datetime._ymd2ord, datetime._days_before_month.
  change (datetime._DAYS_BEFORE_MONTH 1) with 0. simpl. lia.
Qed.

Lemma isoweek1monday_spec (y : Z) :
  datetime._days_before_year y - 2 ≤ datetime._isoweek1monday y
    ≤ datetime._days_before_year y + 4 ∧
  ∃ n, datetime._isoweek1monday y + 6 = 7 * n.
Proof.
  unfold datetime._isoweek1monday. cbv zeta. rewrite ymd2ord_jan1.
  remember (datetime._days_before_year y) as D eqn:HD. clear HD.
  remember (D + 1) as F eqn:HF. set (r := (F + 6) mod 7).
  assert (0 ≤ r < 7) as Hr by (apply Z.mod_pos_bound; lia).
  assert (F + 6 - r = 7 * ((F + 6) / 7)) as Hq
    by (pose proof (Z.div_mod (F + 6) 7); unfold r; lia).
  set (q := (F + 6) / 7) in *. clearbody q r.
  destruct (Z.ltb_spec 3 r); (split; [lia|]).
  - exists (q + 1). lia.
  - exists q. lia.
Qed.

Lemma weekday_range (dt : datetime.date) : 0 ≤ datetime.weekday dt ≤ 6.
Proof.
  unfold datetime.weekday.
  pose proof (Z.mod_pos_bound (datetime.toordinal dt + 6) 7). lia.
Qed.

Lemma isoweek_range (dt : datetime.date) :
  valid_date dt → 1 ≤ datetime.isoweek dt ≤ 53.
Proof.
  intros (Hy & Hm & Hd). destruct dt as [y m d]. simpl in *.
  pose proof (day_of_year_bounds y m d Hm Hd) as Hdoy.
  pose proof (days_before_year_succ y) as Hnext.
  pose proof (days_before_year_succ (y - 1)) as Hprev.
  replace (y - 1 + 1) with y in Hprev by lia.
  pose proof (isoweek1monday_spec y) as [Hw [n Hwm]].
  pose proof (isoweek1monday_spec (y + 1)) as [Hw1 [n1 Hwm1]].
  pose proof (isoweek1monday_spec (y - 1)) as [Hw0 [n0 Hwm0]].
  unfold datetime.isoweek, datetime.isocalendar, datetime.toordinal, datetime._ymd2ord.
  cbn [datetime.year datetime.month datetime.day].
  set (D := datetime._days_before_year y) in *.
  set (D1 := datetime._days_before_year (y + 1)) in *.
  set (D0 := datetime._days_before_year (y - 1)) in *.
  set (W := datetime._isoweek1monday y) in *.
  set (W1 := datetime._isoweek1monday (y + 1)) in *.
  set (W0 := datetime._isoweek1monday (y - 1)) in *.
  set (k := datetime._days_before_month y m + d) in *.
  replace (D + datetime._days_before_month y m + d) with (D + k) by (unfold k; lia).
  clearbody D D1 D0 W W1 W0 k.
  destruct (datetime._is_leap y), (datetime._is_leap (y - 1));
    destruct (Z.ltb_spec ((D + k - W) / 7) 0); simpl;
      try (destruct (Z.leb_spec 52 ((D + k - W) / 7)); simpl;
           try destruct (Z.leb_spec W1 (D + k)); simpl);
      Z.div_mod_to_equations; lia.
Qed.

Lemma days_before_month_succ (y m : Z) :
  1 ≤ m < 12 →
  datetime._days_before_month y (m + 1)
  = datetime._days_before_month y m + days_in_month y m.
Proof.
  intros Hm. unfold datetime._days_before_month, days_in_month.
  change (leap_year y) with (datetime._is_leap y).
  assert (m = 1 ∨ m = 2 ∨ m = 3 ∨ m = 4 ∨ m = 5 ∨ m = 6 ∨ m = 7 ∨ m = 8 ∨ m = 9 ∨
          m = 10 ∨ m = 11) as Hcases by lia.
  destruct (datetime._is_leap y);
    (destruct Hcases as [->|[->|[->|[->|[->|[->|[->|[->|[->|[->| ->]]]]]]]]]];
     vm_compute; reflexivity).
Qed.

Lemma days_before_month_december (y : Z) :
  datetime._days_before_month y 12 + days_in_month y 12
  = if datetime._is_leap y then 366 else 365.
Proof.
  unfold datetime._days_before_month, days_in_month.
  change (leap_year y) with (datetime._is_leap y).
  destruct (datetime._is_leap y); vm_compute; reflexivity.
Qed.

Lemma days_before_month_january (y : Z) : datetime._days_before_month y 1 = 0.
Proof.
  unfold datetime._days_before_month.
  destruct (datetime._is_leap y); vm_compute; reflexivity.
Qed.

Lemma toordinal_tomorrow (dt : datetime.date) :
  valid_date dt → datetime.toordinal (tomorrow dt) = datetime.toordinal dt + 1.
Proof.
  destruct dt as [y m d]. intros (Hy & Hm & Hd). simpl in Hy, Hm, Hd.
  unfold tomorrow, datetime.toordinal, datetime._ymd2ord.
  destruct (Z.ltb_spec d (days_in_month y m)) as [Hlt|Hge];
    cbn [datetime.year datetime.month datetime.day]; [lia|].
  assert (d = days_in_month y m) as -> by lia. clear Hd Hge.
  destruct (Z.ltb_spec m 12) as [Hm12|Hm12];
    cbn [datetime.year datetime.month datetime.day].
  - rewrite days_before_month_succ by lia. lia.
  - assert (m = 12) as -> by lia.
    pose proof (days_before_month_december y) as Hdec.
    rewrite days_before_year_succ, days_before_month_january.
    destruct (datetime._is_leap y); lia.
Qed.

Lemma weekday_tomorrow (dt : datetime.date) :
  valid_date dt → datetime.weekday (tomorrow dt) = (datetime.weekday dt + 1) mod 7.
Proof.
  intros Hv. unfold datetime.weekday. rewrite (toordinal_tomorrow dt Hv).
  Z.div_mod_to_equations. lia.
Qed.

(** The ISO week of a date is the week of its Thursday: the ISO year is the
    year that holds the Thursday, and the week counts the Thursdays of that
    year up to it. *)
Lemma isocalendar_thursday (dt : datetime.date) :
  valid_date dt →
  ∃ Y, datetime.isocalendar dt = (Y, datetime.isoweek dt, datetime.weekday dt + 1) ∧
    datetime.toordinal (datetime.mkdate Y 1 1) ≤ thursday_of dt
      < datetime.toordinal (datetime.mkdate (Y + 1) 1 1) ∧
    datetime.isoweek dt
    = (thursday_of dt - datetime.toordinal (datetime.mkdate Y 1 1)) / 7 + 1.
Proof.
  intros (Hy & Hm & Hd). destruct dt as [y m d]. simpl in Hy, Hm, Hd.
  pose proof (day_of_year_bounds y m d Hm Hd) as Hdoy.
  pose proof (days_before_year_succ y) as Hnext.
  pose proof (days_before_year_succ (y + 1)) as Hnext2.
  pose proof (days_before_year_succ (y - 1)) as Hprev.
  replace (y - 1 + 1) with y in Hprev by lia.
  replace (y + 1 + 1) with (y + 2) in Hnext2 by lia.
  pose proof (isoweek1monday_spec y) as [Hw [n Hwm]].
  pose proof (isoweek1monday_spec (y + 1)) as [Hw1 [n1 Hwm1]].
  pose proof (isoweek1monday_spec (y - 1)) as [Hw0 [n0 Hwm0]].
  unfold thursday_of, datetime.isoweek, datetime.isocalendar, datetime.weekday,
    datetime.toordinal.
  cbn [datetime.year datetime.month datetime.day].
  set (D := datetime._days_before_year y) in *.
  set (D1 := datetime._days_before_year (y + 1)) in *.
  set (D2 := datetime._days_before_year (y + 2)) in *.
  set (D0 := datetime._days_before_year (y - 1)) in *.
  set (W := datetime._isoweek1monday y) in *.
  set (W1 := datetime._isoweek1monday (y + 1)) in *.
  set (W0 := datetime._isoweek1monday (y - 1)) in *.
  set (k := datetime._days_before_month y m + d) in *.
  set (ord := datetime._ymd2ord y m d).
  assert (ord = D + k) as Hord by (unfold ord, datetime._ymd2ord, D, k; lia).
  clearbody W W1 W0 k ord. subst ord.
  assert (∃ a wd, D + k + 6 = 7 * a + wd ∧ 0 ≤ wd < 7 ∧ (D + k + 6) mod 7 = wd)
    as (a & wd & Ha & Hwd & ->).
  { exists ((D + k + 6) / 7), ((D + k + 6) mod 7).
    pose proof (Z.div_mod (D + k + 6) 7). pose proof (Z.mod_pos_bound (D + k + 6) 7). lia. }
  destruct (datetime._is_leap y), (datetime._is_leap (y - 1)), (datetime._is_leap (y + 1));
    destruct (Z.ltb_spec ((D + k - W) / 7) 0) as [Hneg|Hpos]; cbn [fst snd];
      try (destruct (Z.leb_spec 52 ((D + k - W) / 7)) as [H52|H52]; cbn [andb];
           try destruct (Z.leb_spec W1 (D + k)) as [HW1|HW1]; cbn [fst snd]).
  all: first
    [ exists (y - 1); rewrite !ymd2ord_jan1; replace (y - 1 + 1) with y by lia;
      change (datetime._days_before_year y) with D;
      change (datetime._days_before_year (y - 1)) with D0;
      clearbody D D0 D1 D2;
      split; [repeat f_equal; Z.div_mod_to_equations; lia|];
      split; Z.div_mod_to_equations; lia
    | exists (y + 1); rewrite !ymd2ord_jan1; replace (y + 1 + 1) with (y + 2) by lia;
      change (datetime._days_before_year (y + 1)) with D1;
      change (datetime._days_before_year (y + 2)) with D2;
      clearbody D D0 D1 D2;
      split; [repeat f_equal; Z.div_mod_to_equations; lia|];
      split; Z.div_mod_to_equations; lia
    | exists y; rewrite !ymd2ord_jan1;
      change (datetime._days_before_year y) with D;
      change (datetime._days_before_year (y + 1)) with D1;
      clearbody D D0 D1 D2;
      split; [repeat f_equal; Z.div_mod_to_equations; lia|];
      split; Z.div_mod_to_equations; lia ].
Qed.

(** C8: the calendar columns of the row are functions of the date alone:
    year, month, day, ISO week, weekday counted from Monday = 0, and
    quarter = (month - 1) // 3 + 1, in serving and in training; for
    2024-03-15 they are 2024, 3, 15, week 11, weekday 4 and quarter 1.  The
    week and the weekday are those of the calendar, for every date: day
    numbers count the days (the day after a date has the next number, and
    0001-01-01 has number 1), the weekday advances by one a day, modulo 7,
    from a Monday, and the ISO week is the week of the Thursday of the date's
    week, counted in the year that holds this Thursday. *)
Theorem calendar_derivation :
  (∀ Model Scaler (a : artifacts Model Scaler) data row,
     assemble_row data a = Ok row →
     row !! "year" = Some (VInt (datetime.year (date data))) ∧
     row !! "month" = Some (VInt (datetime.month (date data))) ∧
     row !! "day" = Some (VInt (datetime.day (date data))) ∧
     row !! "week" = Some (VInt (datetime.isoweek (date data))) ∧
     row !! "dayofweek" = Some (VInt (datetime.weekday (date data))) ∧
     row !! "quarter" = Some (VInt ((datetime.month (date data) - 1) / 3 + 1))) ∧
  (∀ d, preprocess_calendar d =
        [("year", datetime.year d); ("month", datetime.month d);
         ("day", datetime.day d); ("week", datetime.isoweek d);
         ("dayofweek", datetime.weekday d);
         ("quarter", (datetime.month d - 1) / 3 + 1)]) ∧
  (datetime.year (datetime.mkdate 2024 3 15) = 2024 ∧
   datetime.month (datetime.mkdate 2024 3 15) = 3 ∧
   datetime.day (datetime.mkdate 2024 3 15) = 15 ∧
   datetime.isoweek (datetime.mkdate 2024 3 15) = 11 ∧
   datetime.weekday (datetime.mkdate 2024 3 15) = 4 ∧
   (datetime.month (datetime.mkdate 2024 3 15) - 1) / 3 + 1 = 1) ∧
  datetime.weekday (datetime.mkdate 2024 3 11) = 0 ∧
  datetime.toordinal (datetime.mkdate 1 1 1) = 1 ∧
  (∀ dt, valid_date dt →
     datetime.toordinal (tomorrow dt) = datetime.toordinal dt + 1 ∧
     datetime.weekday (tomorrow dt) = (datetime.weekday dt + 1) mod 7 ∧
     ∃ Y,
       datetime.isocalendar dt = (Y, datetime.isoweek dt, datetime.weekday dt + 1) ∧
       datetime.toordinal (datetime.mkdate Y 1 1) ≤ thursday_of dt
         < datetime.toordinal (datetime.mkdate (Y + 1) 1 1) ∧
       datetime.isoweek dt
       = (thursday_of dt - datetime.toordinal (datetime.mkdate Y 1 1)) / 7 + 1).
Proof.
  split; [|split; [done|split; [by vm_compute|split; [by vm_compute|split]]]].
  - intros Model Scaler a data row Hrow.
    repeat split;
      (rewrite (assemble_row_calendar data a row _ Hrow)
         by (simpl; rewrite !not_elem_of_cons; repeat split; try discriminate;
             apply not_elem_of_nil));
      reflexivity.
  - by vm_compute.
  - intros dt Hv. split; [by apply toordinal_tomorrow|].
    split; [by apply weekday_tomorrow|]. by apply isocalendar_thursday.
Qed.

Lemma calendar_derivation_witness :
  (assemble_row Examples.request_data Examples.bundle
   = Ok (<["Seasonality" := VInt 1]> (<["Weather Condition" := VInt 3]>
        (<["Region" := VInt 1]> (<["Category" := VInt 0]>
        (base_row Examples.request_data))))) ∧
   (<["Seasonality" := VInt 1]> (<["Weather Condition" := VInt 3]>
        (<["Region" := VInt 1]> (<["Category" := VInt 0]>
        (base_row Examples.request_data))))) !! "week" = Some (VInt 11)) ∧
  valid_date (datetime.mkdate 2021 1 3) ∧
  datetime.isoweek (datetime.mkdate 2021 1 3) = 53 ∧
  datetime.isoweek (datetime.mkdate 2024 12 30) = 1 ∧
  ∃ Y,
    datetime.toordinal (datetime.mkdate Y 1 1) ≤ thursday_of (datetime.mkdate 2021 1 3)
      < datetime.toordinal (datetime.mkdate (Y + 1) 1 1) ∧
    datetime.isoweek (datetime.mkdate 2021 1 3)
    = (thursday_of (datetime.mkdate 2021 1 3)
       - datetime.toordinal (datetime.mkdate Y 1 1)) / 7 + 1.
Proof.
  split.
  - split; [reflexivity|].
    apply (proj1 calendar_derivation nat unit Examples.bundle Examples.request_data).
    reflexivity.
  - assert (valid_date (datetime.mkdate 2021 1 3)) as Hv
      by (vm_compute; repeat split; discriminate).
    split; [exact Hv|]. split; [vm_compute; reflexivity|].
    split; [vm_compute; reflexivity|].
    destruct (proj2 (proj2 (proj2 (proj2 (proj2 calendar_derivation))))
                (datetime.mkdate 2021 1 3) Hv) as (_ & _ & Y & _ & Hyear & Hweek).
    exists Y. split; [exact Hyear | exact Hweek].
Defined.

(** X8: for a record whose date is a date of the calendar, the calendar
    cells of the assembled row are in range: the ISO week from 1 to 53, the
    day of the week from 0 to 6, and the quarter from 1 to 4, the quarter
    being the one that holds the month. *)
Theorem calendar_features_in_range {Model Scaler} (a : artifacts Model Scaler)
    (data : Data) (row : gmap string value) :
  valid_date (date data) →
  assemble_row data a = Ok row →
  ∃ week dayofweek quarter,
    row !! "week" = Some (VInt week) ∧ 1 ≤ week ≤ 53 ∧
    row !! "dayofweek" = Some (VInt dayofweek) ∧ 0 ≤ dayofweek ≤ 6 ∧
    row !! "quarter" = Some (VInt quarter) ∧ 1 ≤ quarter ≤ 4 ∧
    3 * (quarter - 1) < datetime.month (date data) ≤ 3 * quarter.
Proof.
  intros Hvalid Hrow.
  exists (datetime.isoweek (date data)), (datetime.weekday (date data)),
    ((datetime.month (date data) - 1) / 3 + 1).
  unfold assemble_row in Hrow.
  rewrite !(encode_columns_lookup_ne _ _ _ _ _ _ Hrow)
    by (simpl; rewrite !not_elem_of_cons; repeat split; try discriminate;
        apply not_elem_of_nil).
  split; [reflexivity|]. split; [by apply isoweek_range|].
  split; [reflexivity|]. split; [apply weekday_range|].
  split; [reflexivity|].
  destruct Hvalid as (_ & Hm & _). Z.div_mod_to_equations. lia.
Qed.

Lemma calendar_features_in_range_witness :
  valid_date (date Examples.request_data) ∧
  ∃ row week, assemble_row Examples.request_data Examples.bundle = Ok row ∧
    row !! "week" = Some (VInt week) ∧ 1 ≤ week ≤ 53.
Proof.
  assert (valid_date (date Examples.request_data)) as Hvalid
    by (vm_compute; repeat split; discriminate).
  split; [exact Hvalid|].
  destruct (preprocess_input_total Examples.request_data Examples.bundle
              example_bundle_complete) as [X HX].
  destruct (preprocess_input_Ok _ _ _ HX) as (row & v & Hrow & _).
  destruct (calendar_features_in_range Examples.bundle Examples.request_data row
              Hvalid Hrow) as (week & _ & _ & Hweek & Hrange & _).
  by exists row, week.
Defined.

Lemma int_of_float_raises x e : int_of_float x = Raise e → e = ValueError ∨ e = OverflowError.
Proof. destruct x; simpl; intros [= <-]; auto. Qed.

Lemma SFmul_nan_r x : SFmul 53 1024 x S754_nan = S754_nan.
Proof. by destruct x. Qed.

(** X9: whatever the ratio, [time_split] loses, repeats and reorders
    nothing: when it returns, the training part followed by the test part
    is the input, for the frame and for the target, and the parts of a
    target as long as the frame are as long as the parts of the frame.  It
    raises only where [int] does, with [ValueError] when the ratio is no
    number. *)
Theorem time_split_partition {A B} (X : list A) (y : list B) (test_ratio : spec_float) :
  (∀ X_train X_test y_train y_test,
     time_split X y test_ratio = Ok (X_train, X_test, y_train, y_test) →
     X_train ++ X_test = X ∧ y_train ++ y_test = y ∧
     (length y = length X →
      length y_train = length X_train ∧ length y_test = length X_test)) ∧
  (∀ e, time_split X y test_ratio = Raise e → e = ValueError ∨ e = OverflowError) ∧
  time_split X y S754_nan = Raise ValueError.
Proof.
  split; [|split].
  - intros X_train X_test y_train y_test. unfold time_split.
    destruct (split_index _ _) as [k|e]; simpl; [|done].
    intros [= <- <- <- <-]. unfold iloc_to, iloc_from.
    rewrite !take_drop. split; [done|]. split; [done|].
    intros Hlen. by rewrite !length_take, !length_drop, Hlen.
  - intros e. unfold time_split, split_index.
    destruct (int_of_float _) as [k|e'] eqn:Hk; simpl; [done|].
    intros [= <-]. by eapply int_of_float_raises.
  - unfold time_split, split_index.
    assert (SFsub 53 1024 (float_of_Z 1) S754_nan = S754_nan) as -> by reflexivity.
    by rewrite SFmul_nan_r.
Qed.

Section WinnerProofs.
Context {Model Scaler : Type} `{Regressor Model} `{Sklearn Model Scaler}.

Lemma train_models_rows X_train X_test y_train y_test X_train_sc X_test_sc (i : nat) r :
  (train_models X_train X_test y_train y_test X_train_sc X_test_sc).1.1.1 !! i = Some r →
  model r = "LinearRegression" ∨ model r = "RandomForest" ∨ model r = "XGBoost".
Proof.
  unfold train_models. simpl.
  destruct i as [|[|[|i]]]; simpl; intros [= <-]; auto.
Qed.

Lemma main_winner X y le_map feature_names X_train X_test y_train y_test best_name :
  time_split X y test_ratio_default = Ok (X_train, X_test, y_train, y_test) →
  pick_best (train_models X_train X_test y_train y_test
               (StandardScaler_transform (StandardScaler_fit X_train) X_train)
               (StandardScaler_transform (StandardScaler_fit X_train) X_test)).1.1.1
  = Ok best_name →
  main X y le_map feature_names
  = Ok (mkArtifacts
          (if str_contains "XGBoost" best_name
           then tune_xgboost X_train y_train X_test y_test
           else if str_contains "RandomForest" best_name
                then tune_random_forest X_train y_train
                else LinearRegression_fit
                       (StandardScaler_transform (StandardScaler_fit X_train) X_train)
                       y_train)
          (StandardScaler_fit X_train) le_map feature_names).
Proof.
  intros Hsplit Hbest. unfold main. rewrite Hsplit.
  change (mbind ?f (Ok ?x)) with (f x). cbv beta iota.
  unfold scale. cbv zeta iota beta.
  unfold train_models in *. cbv zeta in *. simpl in Hbest. simpl.
  rewrite Hbest. reflexivity.
Qed.

End WinnerProofs.

Lemma time_split_default {A B} (X : list A) (y : list B) :
  Z.of_nat (length X) < 2 ^ 50 →
  time_split X y test_ratio_default
  = Ok (take (Z.to_nat (4 * Z.of_nat (length X) / 5)) X,
        drop (Z.to_nat (4 * Z.of_nat (length X) / 5)) X,
        take (Z.to_nat (4 * Z.of_nat (length X) / 5)) y,
        drop (Z.to_nat (4 * Z.of_nat (length X) / 5)) y).
Proof.
  intros Hn. unfold time_split. rewrite split_index_default by lia.
  change (mbind ?f (Ok ?x)) with (f x). cbv beta.
  assert (0 ≤ 4 * Z.of_nat (length X) / 5) by (apply Z.div_pos; lia).
  by rewrite !iloc_to_nonneg, !iloc_from_nonneg.
Qed.

Lemma pick_best_Ok (results_df : list metrics_row) name :
  pick_best results_df = Ok name →
  ∃ (i : nat) r, results_df !! i = Some r ∧ model r = name.
Proof.
  unfold pick_best. destruct (column_RMSE results_df) as [col|e]; [|done].
  change (mbind ?f (Ok ?x)) with (f x). cbv beta.
  destruct (idxmin col) as [i|e]; [|done].
  change (mbind ?f (Ok ?x)) with (f x). cbv beta. unfold loc.
  destruct (results_df !! i) as [r|] eqn:Hr; [|done].
  intros [= <-]. eauto.
Qed.

(** X10: the model [main] stores does not come from the tree models it
    compared: with the same winner, the bundle is the same whatever
    [RandomForestRegressor.fit] and [XGBRegressor.fit] returned for the
    comparison.  When RandomForest or XGBoost wins, the bundle holds what a
    new search returns from the training part; when LinearRegression wins,
    the compared model itself, fitted on the scaled training part.  The
    winner is one of the three. *)
Theorem main_persists_winner {Model Scaler : Type} `{Regressor Model}
    (sk : Sklearn Model Scaler) (rf_fit : ndarray → list value → Model)
    (xgb_fit : ndarray → list value → ndarray → list value → Model)
    (X : ndarray) (y : list value) (le_map : gmap string LabelEncoder)
    (feature_names : list string) (best_name : string) :
  Z.of_nat (length X) < 2 ^ 50 →
  let k := Z.to_nat (4 * Z.of_nat (length X) / 5) in
  pick_best (comparison_table sk k X y) = Ok best_name →
  pick_best (comparison_table (with_tree_fits sk rf_fit xgb_fit) k X y) = Ok best_name →
  ∃ b,
    @main _ _ _ sk X y le_map feature_names = Ok b ∧
    @main _ _ _ (with_tree_fits sk rf_fit xgb_fit) X y le_map feature_names = Ok b ∧
    ((best_name = "LinearRegression" ∧
      art_model b
      = @LinearRegression_fit _ _ sk
          (@StandardScaler_transform _ _ sk (@StandardScaler_fit _ _ sk (take k X))
             (take k X)) (take k y)) ∨
     (best_name = "RandomForest" ∧
      art_model b = @tune_random_forest _ _ sk (take k X) (take k y)) ∨
     (best_name = "XGBoost" ∧
      art_model b = @tune_xgboost _ _ sk (take k X) (take k y) (drop k X) (drop k y))).
Proof.
  intros Hn k Hpick Hpick'.
  pose proof (@main_winner _ _ _ sk X y le_map feature_names _ _ _ _ best_name
                (time_split_default X y Hn) Hpick) as Hmain.
  pose proof (@main_winner _ _ _ (with_tree_fits sk rf_fit xgb_fit) X y le_map
                feature_names _ _ _ _ best_name (time_split_default X y Hn) Hpick')
    as Hmain'.
  eexists. split; [exact Hmain|]. split; [exact Hmain'|].
  destruct (pick_best_Ok _ _ Hpick) as (i & r & Hi & <-).
  destruct (@train_models_rows _ _ _ sk _ _ _ _ _ _ _ _ Hi) as [Hm | [Hm | Hm]];
    rewrite Hm; simpl; auto.
Qed.

(** The forest is compared as model 1 and wins; the search returns model 7,
    which is stored, also when model 3 had been compared in its place. *)
Lemma main_persists_winner_witness :
  Z.of_nat (length Fixtures.forest_wins) < 2 ^ 50 ∧
  pick_best (@comparison_table nat unit Examples.column_regressor
               Fixtures.searching_sklearn 1 Fixtures.forest_wins [VInt 1; VInt 4])
  = Ok "RandomForest" ∧
  (@train_models nat unit Examples.column_regressor Fixtures.searching_sklearn
     [[VInt 1; VInt 1; VInt 1; VInt 1]] [[VInt 5; VInt 2; VInt 5; VInt 2]]
     [VInt 1] [VInt 4]
     [[VInt 1; VInt 1; VInt 1; VInt 1]] [[VInt 5; VInt 2; VInt 5; VInt 2]]).1.2 = 1%nat ∧
  ∃ b,
    @main nat unit Examples.column_regressor Fixtures.searching_sklearn
      Fixtures.forest_wins [VInt 1; VInt 4] Examples.le_map Examples.feature_names = Ok b ∧
    @main nat unit Examples.column_regressor
      (with_tree_fits Fixtures.searching_sklearn (λ _ _, 3%nat) (λ _ _ _ _, 2%nat))
      Fixtures.forest_wins [VInt 1; VInt 4] Examples.le_map Examples.feature_names = Ok b ∧
    art_model b = 7%nat.
Proof.
  split; [vm_compute; reflexivity|]. split; [vm_compute; reflexivity|].
  split; [reflexivity|].
  destruct (@main_persists_winner nat unit Examples.column_regressor
              Fixtures.searching_sklearn (λ _ _, 3%nat) (λ _ _ _ _, 2%nat)
              Fixtures.forest_wins [VInt 1; VInt 4] Examples.le_map
              Examples.feature_names "RandomForest" ltac:(vm_compute; reflexivity)
              ltac:(vm_compute; reflexivity) ltac:(vm_compute; reflexivity))
    as (b & Hmain & Hmain' & [[Hname _]|[[_ Hmodel]|[Hname _]]]);
    [discriminate Hname| |discriminate Hname].
  exists b. split; [exact Hmain|]. split; [exact Hmain'|exact Hmodel].
Defined.

Lemma idxmin_all_nan (col : list spec_float) :
  Forall (λ x, is_nan x = true) col → idxmin col = Raise ValueError.
Proof.
  intros Hall. unfold idxmin. by rewrite (proj2 (first_valid_None 0 col) Hall).
Qed.

(** X11: [pick_best] passes over the rows whose RMSE is a NaN: as soon as
    one row has an RMSE that is no NaN, the row returned is the first of the
    rows of least RMSE among those that are no NaN, and no row undercuts it.
    The table of no record has no column [RMSE] and raises [KeyError]; a
    table whose RMSE are all NaN raises. *)
Theorem pick_best_skips_nan (results_df : list metrics_row) :
  (results_df = [] → pick_best results_df = Raise (KeyError ["RMSE"])) ∧
  (results_df ≠ [] → Forall (λ r, is_nan (RMSE r) = true) results_df →
   ∃ e, pick_best results_df = Raise e) ∧
  (∀ r0, r0 ∈ results_df → is_nan (RMSE r0) = false →
     ∃ (i : nat) best, results_df !! i = Some best ∧
       pick_best results_df = Ok (model best) ∧
       is_nan (RMSE best) = false ∧
       (∀ r, r ∈ results_df → float_lt (RMSE r) (RMSE best) = false) ∧
       (∀ (j : nat) r, (j < i)%nat → results_df !! j = Some r →
          is_nan (RMSE r) = false → float_lt (RMSE best) (RMSE r) = true)).
Proof.
  split; [by intros ->|]. split.
  - intros Hne Hall. exists ValueError. unfold pick_best.
    rewrite (column_RMSE_Ok _ Hne). change (mbind ?f (Ok ?x)) with (f x). cbv beta.
    rewrite idxmin_all_nan; [done|]. by apply Forall_fmap.
  - intros r0 Hr0 Hnum.
    assert (results_df ≠ []) as Hne by (intros ->; by apply elem_of_nil in Hr0).
    destruct (idxmin_skipna (RMSE <$> results_df) (RMSE r0))
      as (i & m & Hidx & Hm & Hmn & Hmin & Hfirst);
      [apply list_elem_of_fmap; eauto|done|].
    rewrite list_lookup_fmap in Hm.
    destruct (results_df !! i) as [best|] eqn:Hbest; [|done].
    simpl in Hm. injection Hm as <-.
    exists i, best. split; [done|]. split; [|split; [done|split]].
    + unfold pick_best. rewrite (column_RMSE_Ok _ Hne).
      change (mbind ?f (Ok ?x)) with (f x). cbv beta. rewrite Hidx.
      change (mbind ?f (Ok ?x)) with (f x). cbv beta. unfold loc. by rewrite Hbest.
    + intros r Hr. apply list_elem_of_lookup in Hr as [j Hj].
      apply (Hmin j). by rewrite list_lookup_fmap, Hj.
    + intros j r Hj Hr Hrn. apply (Hfirst j); [done| |done].
      by rewrite list_lookup_fmap, Hr.
Qed.

(** A NaN before an infinity: the row of the infinity is returned. *)
Example pick_best_nan_inf :
  pick_best [mkRow "LinearRegression" S754_nan S754_nan S754_nan;
             mkRow "RandomForest" (S754_infinity false) (S754_infinity false)
                   (S754_infinity false)]
  = Ok "RandomForest".
Proof. reflexivity. Qed.
